(** * AuraAI trajectory-rating workflow: a shallow embedding

    The development embeds the [TrajectoryRating] class of
    [static/js/trajectory_rating.js]: the session fields become a record,
    the page elements the class reads and writes become a second record,
    and every method is a computation in a small state-and-exception monad
    that also records the effects leaving the page (alerts, notices,
    network requests, timers, page navigation).

    Numbers.  IEEE doubles are idealised: integer-valued fields are
    [Z] plus [NaN]; the progress quotient is an exact rational plus [NaN]
    and [Infinity].  Negative zero is identified with zero.  The exact
    quotient agrees with the doubles of the code on [NaN], on [Infinity]
    and on the test [progress >= 100]; it does not always agree on the
    rounded percentage ([(23/40)*100] is [57.49999999999999] in doubles and
    rounds to 57, the exact value [57.5] to 58).  No property below states
    the percentage written for a positive total. *)

From Stdlib Require Import ZArith QArith Qround Ascii String List Lia.
From stdpp Require Import base decidable countable gmap.
Import ListNotations.

Local Open Scope Z_scope.

(** ** Host-language values *)

Module JS.

(** A number that is integer-valued or [NaN] (what [parseInt] returns). *)
Inductive num : Type :=
| NaN
| Int (z : Z).

(** The values the field [currentTrajectoryId] can hold. *)
Inductive value : Type :=
| Null
| Undefined
| Num (n : num).

(** A number of the full range the class computes with: the progress
    quotient can be [NaN] (0/0) or [Infinity] (n/0). *)
Inductive number : Type :=
| NotANumber
| Infinity
| Finite (q : Q).

#[global] Instance num_eq_dec : EqDecision num.
Proof. solve_decision. Defined.

#[global] Instance value_eq_dec : EqDecision value.
Proof. solve_decision. Defined.

Definition value_code (v : value) : option (option (option Z)) :=
  match v with
  | Null => None
  | Undefined => Some None
  | Num NaN => Some (Some None)
  | Num (Int z) => Some (Some (Some z))
  end.

Definition value_decode (c : option (option (option Z))) : value :=
  match c with
  | None => Null
  | Some None => Undefined
  | Some (Some None) => Num NaN
  | Some (Some (Some z)) => Num (Int z)
  end.

#[global] Instance value_countable : Countable value.
Proof.
  refine (inj_countable' value_code value_decode _).
  intros [| |[|z]]; reflexivity.
Defined.

(** ToBoolean on numbers: [0] and [NaN] are falsy. *)
Definition truthy_num (n : num) : bool :=
  match n with
  | NaN => false
  | Int z => negb (z =? 0)
  end.

(** ToBoolean on values. *)
Definition truthy (v : value) : bool :=
  match v with
  | Null | Undefined => false
  | Num n => truthy_num n
  end.

(** ToBoolean on a nullable string: [null] and the empty string are falsy. *)
Definition truthy_str (s : option string) : bool :=
  match s with
  | None => false
  | Some EmptyString => false
  | Some (String _ _) => true
  end.

(** ToNumber on values: [null] is 0, [undefined] is [NaN]. *)
Definition toNumber (v : value) : num :=
  match v with
  | Null => Int 0
  | Undefined => NaN
  | Num n => n
  end.

Definition add (a b : num) : num :=
  match a, b with
  | Int x, Int y => Int (x + y)
  | _, _ => NaN
  end.

Definition sub (a b : num) : num :=
  match a, b with
  | Int x, Int y => Int (x - y)
  | _, _ => NaN
  end.

(** Relational operators: every comparison with [NaN] is false. *)
Definition lt (a b : num) : bool :=
  match a, b with
  | Int x, Int y => x <? y
  | _, _ => false
  end.

Definition le (a b : num) : bool :=
  match a, b with
  | Int x, Int y => x <=? y
  | _, _ => false
  end.

Definition ge (a b : num) : bool := le b a.

(** [n / d] for a set size [n] (a natural number) and a number [d]; the
    finite quotient is exact, where the code's is the nearest double. *)
Definition div_size (n : nat) (d : num) : number :=
  match d with
  | NaN => NotANumber
  | Int 0 => match n with O => NotANumber | S _ => Infinity end
  | Int t => Finite (inject_Z (Z.of_nat n) / inject_Z t)
  end.

(** [x * k] for an integer literal [k]; a finite product is exact. *)
Definition mul (x : number) (k : Z) : number :=
  match x with
  | NotANumber => NotANumber
  | Infinity => if 0 <? k then Infinity else NotANumber
  | Finite q => Finite (q * inject_Z k)
  end.

(** [x >= k] for a literal [k]. *)
Definition number_ge (x : number) (k : Q) : bool :=
  match x with
  | NotANumber => false
  | Infinity => true
  | Finite q => Qle_bool k q
  end.

(** [Math.round]: the nearest integer, ties towards plus infinity. *)
Inductive rounded : Type :=
| RNaN
| RInfinity
| RInt (z : Z).

Definition Math_round (x : number) : rounded :=
  match x with
  | NotANumber => RNaN
  | Infinity => RInfinity
  | Finite q => RInt (Qfloor (q + (1 # 2)))
  end.

(** *** [parseInt] with the default radix

    Of the white space the host skips, only the ASCII part is skipped
    here, and the integer read is exact, where the host rounds to a double
    from 2^53 on and reads ["-0"] as negative zero.  The properties below
    use [parseInt] only as the value read from an attribute. *)

Definition is_space (c : ascii) : bool :=
  let n := nat_of_ascii c in
  ((n =? 32) || ((9 <=? n) && (n <=? 13)))%nat.

Definition digit_of (radix : Z) (c : ascii) : option Z :=
  let n := Z.of_nat (nat_of_ascii c) in
  let d :=
    if (48 <=? n) && (n <=? 57) then Some (n - 48)
    else if (97 <=? n) && (n <=? 122) then Some (n - 87)
    else if (65 <=? n) && (n <=? 90) then Some (n - 55)
    else None in
  match d with
  | Some k => if k <? radix then Some k else None
  | None => None
  end.

Fixpoint skip_spaces (s : string) : string :=
  match s with
  | String c r => if is_space c then skip_spaces r else s
  | EmptyString => s
  end.

(** Reads the longest prefix of digits; [acc] is [None] until a digit
    has been seen. *)
Fixpoint digits (radix : Z) (acc : option Z) (s : string) : option Z :=
  match s with
  | EmptyString => acc
  | String c r =>
      match digit_of radix c with
      | Some d =>
          digits radix
            (Some (match acc with Some a => a * radix + d | None => d end)) r
      | None => acc
      end
  end.

Definition strip_sign (s : string) : bool * string :=
  match s with
  | String "-"%char r => (true, r)
  | String "+"%char r => (false, r)
  | _ => (false, s)
  end.

Definition strip_hex (s : string) : Z * string :=
  match s with
  | String "0"%char (String "x"%char r) => (16, r)
  | String "0"%char (String "X"%char r) => (16, r)
  | _ => (10, s)
  end.

Definition parseInt (s : string) : num :=
  let '(neg, s1) := strip_sign (skip_spaces s) in
  let '(radix, s2) := strip_hex s1 in
  match digits radix None s2 with
  | Some m => Int (if neg then - m else m)
  | None => NaN
  end.

End JS.

Export JS.

(** ** Session state, page elements and effects *)

(** The fields of a [TrajectoryRating] instance. *)
Record TrajectoryRating : Type := {
  currentRating : num;
  currentTrajectoryId : value;
  videoFilename : option string;
  totalTrajectories : num;
  ratedTrajectories : gset value;
  smoothnessFactor : Q
}.

(** What [populateFinalStats] renders into [#final-stats]. *)
Record final_summary : Type := {
  summary_video : option string;
  summary_total : num;
  summary_rated : nat;
  summary_average : number;
  summary_quality : string
}.

(** The [src] of the preview image: a path and a cache-defeating stamp. *)
Record gif_src : Type := {
  gif_path_shown : string;
  gif_stamp : option Z
}.

(** The elements the class looks up with [getElementById].  A field is
    [None] when the page has no such element; otherwise it holds the part
    of the element the class reads or writes.  The class never creates or
    removes these elements. *)
Record Dom : Type := {
  comment : option string;              (* #comment: its value *)
  submit_rating : option bool;          (* #submit-rating: disabled *)
  prev_trajectory : option bool;        (* #prev-trajectory: disabled *)
  next_trajectory : option bool;        (* #next-trajectory: disabled *)
  progress_fill : option number;        (* #progress-fill: style.width, in % *)
  progress_percent : option rounded;    (* #progress-percent: text, in % *)
  completion_modal : option bool;       (* #completion-modal: display is block *)
  final_stats : option (option final_summary);  (* #final-stats: innerHTML *)
  trajectory_gif : option gif_src       (* #trajectory-gif: src *)
}.

Inductive url : Type :=
| TrajectoryPage (video : option string) (id : num)
| AllTrajectoriesPage (video : option string)
| HomePage.

(** A request as the method builds it: for the two POST requests, the
    object handed to [JSON.stringify], with the field values as they are.
    What the body then holds for a number is given by [stringify_value]
    further down. *)
Inductive request : Type :=
| RateTrajectory (video_filename : option string) (trajectory_id : value)
    (rating : num) (comment : string) (smoothness_factor : Q)
| RegenerateGif (video_filename : option string) (trajectory_id : value)
    (smoothness_factor : Q)
| VideoStatistics (video : option string).

(** The callbacks handed to [setTimeout]. *)
Inductive callback : Type :=
| NavigateNext.                         (* () => this.navigateTrajectory(1) *)

(** Effects that leave the instance and the modelled elements. *)
Inductive event : Type :=
| Alert (message : string)
| Notification (message type : string)
| Fetch (r : request)
| SetTimeout (cb : callback) (ms : Z)
| Navigate (u : url)
| Download (report : final_summary).

(** The parsed body of a response; only [gif_path] is ever read. *)
Record body : Type := { gif_path : option string }.

(** How a [fetch] settles: the promise rejects, or a response arrives whose
    body [response.json()] either parses ([Some]) or rejects ([None]). *)
Inductive response : Type :=
| NetworkError
| Response (ok : bool) (json : option body).

Inductive exn : Type :=
| TypeError (message : string)
| Error (message : string)
| Rejected.

Record world : Type := {
  this : TrajectoryRating;
  document : Dom;
  effects : list event
}.

(** ** The monad of method bodies: state, exceptions, effect log *)

Inductive outcome (A : Type) : Type :=
| Returned (a : A)
| Threw (e : exn).

Arguments Returned {A} a.
Arguments Threw {A} e.

Definition M (A : Type) : Type := world -> outcome A * world.

Definition ret {A} (a : A) : M A := fun w => (Returned a, w).

Definition bind {A B} (m : M A) (k : A -> M B) : M B :=
  fun w =>
    match m w with
    | (Returned a, w') => k a w'
    | (Threw e, w') => (Threw e, w')
    end.

Definition throw {A} (e : exn) : M A := fun w => (Threw e, w).

(** [try { m } catch (error) { h error }]: what [m] did before it threw
    stays done. *)
Definition try_catch (m : M unit) (h : exn -> M unit) : M unit :=
  fun w =>
    match m w with
    | (Returned a, w') => (Returned a, w')
    | (Threw e, w') => h e w'
    end.

#[global] Instance M_ret : MRet M := @ret.
#[global] Instance M_bind : MBind M := fun A B k m => bind m k.

Definition get_this : M TrajectoryRating := fun w => (Returned (this w), w).
Definition get_document : M Dom := fun w => (Returned (document w), w).

Definition put_this (t : TrajectoryRating) : M unit :=
  fun w => (Returned tt, {| this := t; document := document w; effects := effects w |}).

Definition put_document (d : Dom) : M unit :=
  fun w => (Returned tt, {| this := this w; document := d; effects := effects w |}).

Definition emit (e : event) : M unit :=
  fun w => (Returned tt,
            {| this := this w; document := document w; effects := effects w ++ [e] |}).

(** The world a computation leaves behind, whether it returned or threw. *)
Definition exec {A} (m : M A) (w : world) : world := snd (m w).
Definition result {A} (m : M A) (w : world) : outcome A := fst (m w).

(** *** Field assignments *)

Definition set_currentRating (n : num) (t : TrajectoryRating) : TrajectoryRating :=
  {| currentRating := n; currentTrajectoryId := currentTrajectoryId t;
     videoFilename := videoFilename t; totalTrajectories := totalTrajectories t;
     ratedTrajectories := ratedTrajectories t; smoothnessFactor := smoothnessFactor t |}.

Definition set_currentTrajectoryId (v : value) (t : TrajectoryRating) : TrajectoryRating :=
  {| currentRating := currentRating t; currentTrajectoryId := v;
     videoFilename := videoFilename t; totalTrajectories := totalTrajectories t;
     ratedTrajectories := ratedTrajectories t; smoothnessFactor := smoothnessFactor t |}.

Definition set_videoInfo (f : option string) (n : num) (t : TrajectoryRating) : TrajectoryRating :=
  {| currentRating := currentRating t; currentTrajectoryId := currentTrajectoryId t;
     videoFilename := f; totalTrajectories := n;
     ratedTrajectories := ratedTrajectories t; smoothnessFactor := smoothnessFactor t |}.

Definition set_ratedTrajectories (s : gset value) (t : TrajectoryRating) : TrajectoryRating :=
  {| currentRating := currentRating t; currentTrajectoryId := currentTrajectoryId t;
     videoFilename := videoFilename t; totalTrajectories := totalTrajectories t;
     ratedTrajectories := s; smoothnessFactor := smoothnessFactor t |}.

Definition set_smoothnessFactor (q : Q) (t : TrajectoryRating) : TrajectoryRating :=
  {| currentRating := currentRating t; currentTrajectoryId := currentTrajectoryId t;
     videoFilename := videoFilename t; totalTrajectories := totalTrajectories t;
     ratedTrajectories := ratedTrajectories t; smoothnessFactor := q |}.

(** Assignments to an element are skipped when the page lacks it
    ([if (el) el.prop = v]). *)
Definition assign {A} (x : A) (el : option A) : option A :=
  match el with
  | Some _ => Some x
  | None => None
  end.

Definition set_comment (v : string) (d : Dom) : Dom :=
  {| comment := assign v (comment d); submit_rating := submit_rating d;
     prev_trajectory := prev_trajectory d; next_trajectory := next_trajectory d;
     progress_fill := progress_fill d; progress_percent := progress_percent d;
     completion_modal := completion_modal d; final_stats := final_stats d;
     trajectory_gif := trajectory_gif d |}.

Definition set_submit_disabled (b : bool) (d : Dom) : Dom :=
  {| comment := comment d; submit_rating := assign b (submit_rating d);
     prev_trajectory := prev_trajectory d; next_trajectory := next_trajectory d;
     progress_fill := progress_fill d; progress_percent := progress_percent d;
     completion_modal := completion_modal d; final_stats := final_stats d;
     trajectory_gif := trajectory_gif d |}.

Definition set_nav_disabled (p n : bool) (d : Dom) : Dom :=
  {| comment := comment d; submit_rating := submit_rating d;
     prev_trajectory := assign p (prev_trajectory d);
     next_trajectory := assign n (next_trajectory d);
     progress_fill := progress_fill d; progress_percent := progress_percent d;
     completion_modal := completion_modal d; final_stats := final_stats d;
     trajectory_gif := trajectory_gif d |}.

Definition set_progress (x : number) (d : Dom) : Dom :=
  {| comment := comment d; submit_rating := submit_rating d;
     prev_trajectory := prev_trajectory d; next_trajectory := next_trajectory d;
     progress_fill := assign x (progress_fill d);
     progress_percent := assign (Math_round x) (progress_percent d);
     completion_modal := completion_modal d; final_stats := final_stats d;
     trajectory_gif := trajectory_gif d |}.

Definition set_modal_shown (d : Dom) : Dom :=
  {| comment := comment d; submit_rating := submit_rating d;
     prev_trajectory := prev_trajectory d; next_trajectory := next_trajectory d;
     progress_fill := progress_fill d; progress_percent := progress_percent d;
     completion_modal := assign true (completion_modal d);
     final_stats := final_stats d; trajectory_gif := trajectory_gif d |}.

Definition set_final_stats (f : final_summary) (d : Dom) : Dom :=
  {| comment := comment d; submit_rating := submit_rating d;
     prev_trajectory := prev_trajectory d; next_trajectory := next_trajectory d;
     progress_fill := progress_fill d; progress_percent := progress_percent d;
     completion_modal := completion_modal d;
     final_stats := assign (Some f) (final_stats d);
     trajectory_gif := trajectory_gif d |}.

Definition set_gif (g : gif_src) (d : Dom) : Dom :=
  {| comment := comment d; submit_rating := submit_rating d;
     prev_trajectory := prev_trajectory d; next_trajectory := next_trajectory d;
     progress_fill := progress_fill d; progress_percent := progress_percent d;
     completion_modal := completion_modal d; final_stats := final_stats d;
     trajectory_gif := assign g (trajectory_gif d) |}.

Definition modify_this (f : TrajectoryRating -> TrajectoryRating) : M unit :=
  t ← get_this; put_this (f t).

Definition modify_document (f : Dom -> Dom) : M unit :=
  d ← get_document; put_document (f d).

(** ** The methods of [TrajectoryRating]

    Not part of [world]: [console] output, the star highlighting and the
    rating caption ([hoverRating], [clearHover] and the first half of
    [selectRating]), the animation of notices, and the statistics panel
    written by [updateStatisticsDisplay]; none of them is read back by
    any method.  The stars and the statistics panel are modelled on their
    own further down. *)

Definition showNotification (message type : string) : M unit :=
  emit (Notification message type).

Definition selectRating (rating : string) : M unit :=
  modify_this (set_currentRating (parseInt rating));;
  modify_document (set_submit_disabled false).

(** [updateSmoothness]: the slider value arrives already read as a number;
    [parseFloat] and a value that does not parse are outside the model. *)
Definition updateSmoothness (value : Q) : M unit :=
  modify_this (set_smoothnessFactor value).

(** The class body declares no method of this name, yet
    [populateFinalStats] and [exportResults] call it: the property is
    [undefined] and the call raises a [TypeError]. *)
Definition calculateAverageRating : M number :=
  throw (TypeError "this.calculateAverageRating is not a function").

Definition getQualityLevel (averageRating : number) : string :=
  if number_ge averageRating (9 # 2) then "Отличное качество 🏆"
  else if number_ge averageRating 4 then "Хорошее качество 👍"
  else if number_ge averageRating 3 then "Удовлетворительное качество ✅"
  else if number_ge averageRating 2 then "Требует улучшения ⚠️"
  else "Низкое качество ❌".

Definition populateFinalStats : M unit :=
  d ← get_document;
  match final_stats d with
  | Some _ =>
      avgRating ← calculateAverageRating;
      let qualityLevel := getQualityLevel avgRating in
      t ← get_this;
      modify_document
        (set_final_stats
           {| summary_video := videoFilename t;
              summary_total := totalTrajectories t;
              summary_rated := size (ratedTrajectories t);
              summary_average := avgRating;
              summary_quality := qualityLevel |})
  | None => mret tt
  end.

Definition showCompletionModal : M unit :=
  d ← get_document;
  match completion_modal d with
  | Some _ =>
      modify_document set_modal_shown;;
      populateFinalStats;;
      showNotification "🎉 Поздравляем! Все траектории оценены!" "success"
  | None => mret tt
  end.

Definition updateProgress : M unit :=
  d ← get_document;
  match progress_fill d, progress_percent d with
  | Some _, Some _ =>
      t ← get_this;
      let progress :=
        mul (div_size (size (ratedTrajectories t)) (totalTrajectories t)) 100 in
      modify_document (set_progress progress);;
      if number_ge progress 100 then showCompletionModal else mret tt
  | _, _ => mret tt
  end.

(** [loadStatistics] up to its [await]: the request goes out when a video
    name is set.  The method is [async] and catches its own errors, so
    nothing propagates to the caller. *)
Definition loadStatistics : M unit :=
  t ← get_this;
  if negb (truthy_str (videoFilename t)) then mret tt
  else emit (Fetch (VideoStatistics (videoFilename t))).

Definition navigateTrajectory (direction : num) : M unit :=
  t ← get_this;
  if negb (truthy_str (videoFilename t)) then mret tt
  else
    let newTrajectoryId := add (toNumber (currentTrajectoryId t)) direction in
    if lt newTrajectoryId (Int 0) then
      showNotification "🏁 Это первая траектория" "info"
    else if ge newTrajectoryId (totalTrajectories t) then
      showNotification "🏁 Это последняя траектория" "info"
    else emit (Navigate (TrajectoryPage (videoFilename t) newTrajectoryId)).

(** What a timer does when it fires. *)
Definition run_callback (cb : callback) : M unit :=
  match cb with
  | NavigateNext => navigateTrajectory (Int 1)
  end.

Definition skipTrajectory : M unit :=
  showNotification "⏭️ Траектория пропущена" "info";;
  emit (SetTimeout NavigateNext 1000).

(** *** [submitRating]

    The method suspends at [await fetch(...)].  [submitRating_send] is the
    part before the suspension (the guard and the request, whose body is
    built from the fields as they are now); it answers whether a request
    went out.  [submitRating_settle] is the part after it, run when the
    response is known; it reads [this] afresh.  The second suspension, at
    [await response.json()], is folded into the first: the response comes
    with its body already read or already rejected. *)

Definition submitRating_send : M bool :=
  t ← get_this;
  if negb (truthy_num (currentRating t))
     || bool_decide (currentTrajectoryId t = Null)
     || bool_decide (currentTrajectoryId t = Undefined)
  then
    emit (Alert "Пожалуйста, выберите оценку");;
    mret false
  else
    d ← get_document;
    let comment := match comment d with Some v => v | None => EmptyString end in
    emit (Fetch (RateTrajectory (videoFilename t) (currentTrajectoryId t)
                   (currentRating t) comment (smoothnessFactor t)));;
    mret true.

Definition submitRating_settle (r : response) : M unit :=
  try_catch
    (match r with
     | NetworkError => throw Rejected
     | Response true (Some _) =>
         t ← get_this;
         put_this
           (set_ratedTrajectories
              ({[ currentTrajectoryId t ]} ∪ ratedTrajectories t) t);;
         showNotification "✅ Оценка сохранена!" "success";;
         loadStatistics;;
         updateProgress;;
         emit (SetTimeout NavigateNext 1000)
     | Response true None => throw Rejected
     | Response false _ => throw (Error "Ошибка сохранения оценки")
     end)
    (fun error => showNotification "❌ Ошибка сохранения оценки" "error").

(** The whole method when nothing else runs while it is suspended. *)
Definition submitRating (r : response) : M unit :=
  sent ← submitRating_send;
  if sent : bool then submitRating_settle r else mret tt.

(** *** [regenerateGif], split at its [await] in the same way; [now] is
    the value of [Date.now()]. *)

Definition regenerateGif_send : M bool :=
  t ← get_this;
  if negb (truthy (currentTrajectoryId t)) then mret false
  else
    showNotification "🔄 Создаем новый GIF..." "info";;
    emit (Fetch (RegenerateGif (videoFilename t) (currentTrajectoryId t)
                   (smoothnessFactor t)));;
    mret true.

Definition regenerateGif_settle (now : Z) (r : response) : M unit :=
  try_catch
    (match r with
     | NetworkError => throw Rejected
     | Response true (Some result) =>
         match gif_path result with
         | Some p =>
             if truthy_str (Some p) then
               modify_document
                 (set_gif {| gif_path_shown := p; gif_stamp := Some now |})
             else mret tt
         | None => mret tt
         end;;
         showNotification "✅ GIF обновлен!" "success"
     | Response true None => throw Rejected
     | Response false _ => throw (Error "Ошибка создания GIF")
     end)
    (fun error => showNotification "❌ Ошибка создания GIF" "error").

Definition regenerateGif (now : Z) (r : response) : M unit :=
  sent ← regenerateGif_send;
  if sent : bool then regenerateGif_settle now r else mret tt.

Definition viewAllTrajectories : M unit :=
  t ← get_this;
  emit (Navigate (AllTrajectoriesPage (videoFilename t))).

Definition uploadNewVideo : M unit := emit (Navigate HomePage).

Definition exportResults : M unit :=
  try_catch
    (t ← get_this;
     average_rating ← calculateAverageRating;
     quality_arg ← calculateAverageRating;
     emit (Download
             {| summary_video := videoFilename t;
                summary_total := totalTrajectories t;
                summary_rated := size (ratedTrajectories t);
                summary_average := average_rating;
                summary_quality := getQualityLevel quality_arg |});;
     showNotification "📥 Результаты экспортированы!" "success")
    (fun error => showNotification "❌ Ошибка экспорта результатов" "error").

Definition setVideoInfo (filename : option string) (totalTrajectories : num) : M unit :=
  modify_this (set_videoInfo filename totalTrajectories).

Definition setCurrentTrajectory (trajectoryId : value) : M unit :=
  modify_this (set_currentTrajectoryId trajectoryId);;
  modify_this (set_currentRating (Int 0));;
  modify_document (set_comment EmptyString);;
  modify_document (set_submit_disabled true);;
  t ← get_this;
  modify_document
    (set_nav_disabled
       (le (toNumber trajectoryId) (Int 0))
       (ge (toNumber trajectoryId) (sub (totalTrajectories t) (Int 1)))).

(** The fields as the constructor assigns them. *)
Definition fresh : TrajectoryRating :=
  {| currentRating := Int 0;
     currentTrajectoryId := Null;
     videoFilename := None;
     totalTrajectories := Int 0;
     ratedTrajectories := ∅;
     smoothnessFactor := 1 # 10 |}.

(** [init]; [bindEvents] only installs listeners. *)
Definition init : M unit :=
  loadStatistics;;
  updateProgress.

Definition constructor : M unit :=
  put_this fresh;;
  init.

(** The [DOMContentLoaded] handler: the three hidden inputs of the page
    ([None] when the input is absent). *)
Definition on_load (videoFilename trajectoryId totalTrajectories : option string) : M unit :=
  constructor;;
  match videoFilename, trajectoryId, totalTrajectories with
  | Some f, Some i, Some n =>
      if truthy_str (Some f) && truthy_str (Some i) && truthy_str (Some n) then
        setVideoInfo (Some f) (parseInt n);;
        setCurrentTrajectory (Num (parseInt i))
      else mret tt
  | _, _, _ => mret tt
  end.

(** ** Observations on worlds *)

Local Open Scope string_scope.
Local Open Scope list_scope.
Local Open Scope Z_scope.

(** The world [w] after one more effect. *)
Definition logged (e : event) (w : world) : world :=
  {| this := this w; document := document w; effects := effects w ++ [e] |}.

Definition is_fetch (e : event) : bool :=
  match e with
  | Fetch _ => true
  | _ => false
  end.

(** The network calls recorded in a world. *)
Definition requests (w : world) : list event := filter is_fetch (effects w).

Definition validation_message : event := Alert "Пожалуйста, выберите оценку".
Definition first_notice : event := Notification "🏁 Это первая траектория" "info".
Definition last_notice : event := Notification "🏁 Это последняя траектория" "info".
Definition saved_notice : event := Notification "✅ Оценка сохранена!" "success".
Definition save_error_notice : event :=
  Notification "❌ Ошибка сохранения оценки" "error".
Definition completion_notice : event :=
  Notification "🎉 Поздравляем! Все траектории оценены!" "success".

Definition is_completion_notice (e : event) : bool :=
  match e with
  | Notification m _ => String.eqb m "🎉 Поздравляем! Все траектории оценены!"
  | _ => false
  end.

(** How many completion notices a world has seen. *)
Definition completion_notices (w : world) : nat :=
  length (filter is_completion_notice (effects w)).

(** A page with every element the class looks for, and the same page
    without the [#final-stats] list. *)
Definition full_page : Dom :=
  {| comment := Some EmptyString; submit_rating := Some true;
     prev_trajectory := Some false; next_trajectory := Some false;
     progress_fill := Some (Finite 0); progress_percent := Some (RInt 0);
     completion_modal := Some false; final_stats := Some None;
     trajectory_gif := Some {| gif_path_shown := "/static/t0.gif"; gif_stamp := None |} |}.

Definition page_without_final_stats : Dom :=
  {| comment := Some EmptyString; submit_rating := Some true;
     prev_trajectory := Some false; next_trajectory := Some false;
     progress_fill := Some (Finite 0); progress_percent := Some (RInt 0);
     completion_modal := Some false; final_stats := None;
     trajectory_gif := Some {| gif_path_shown := "/static/t0.gif"; gif_stamp := None |} |}.

(** A world before the script has run on page [d]. *)
Definition blank (d : Dom) : world :=
  {| this := fresh; document := d; effects := [] |}.

(** A session on page [d] for video [v.mp4], showing trajectory [i] of [n]. *)
Definition session (d : Dom) (i n : string) : world :=
  exec (on_load (Some "v.mp4") (Some i) (Some n)) (blank d).

Definition accepted : response := Response true (Some {| gif_path := None |}).

(** The response is anything but an accepted one with a readable body. *)
Definition failed (r : response) : bool :=
  match r with
  | Response true (Some _) => false
  | _ => true
  end.

(** The preconditions of [submit()] as the specification words them. *)
Definition spec_submit_preconditions (t : TrajectoryRating) : Prop :=
  truthy_num (currentRating t) = true
  /\ (exists i, currentTrajectoryId t = Num (Int i) /\ 0 <= i)
  /\ truthy_str (videoFilename t) = true.

(** The [data-rating] attribute of star [n]. *)
Definition star (n : Z) : string :=
  String (ascii_of_nat (48 + Z.to_nat n)) EmptyString.

(** Progress as the specification words it: the nearest integer to
    [100 * size / total], and 0 when [total] is 0. *)
Definition spec_progressPercent (size total : Z) : Z :=
  if Z.eqb total 0 then 0
  else Qfloor (inject_Z 100 * inject_Z size / inject_Z total + (1 # 2)).

(** A session whose page announced trajectory -1, with five stars chosen. *)
Definition negative_index_session : world :=
  exec (selectRating "5") (session full_page "-1" "3").

(** Every trajectory of a non-empty video is rated. *)
Definition complete (t : TrajectoryRating) : Prop :=
  exists n, totalTrajectories t = Int n /\ 0 < n
            /\ Z.of_nat (size (ratedTrajectories t)) = n.

(** Completion as a latch, the way the specification words it: recomputing
    the progress of a session that has already announced its completion
    announces nothing further. *)
Definition completion_latched (w : world) : Prop :=
  completion_notices (exec updateProgress w) = completion_notices w.

(** A one-trajectory session after its only trajectory was rated and
    accepted. *)
Definition completed_session : world :=
  exec (selectRating "5";; submitRating accepted)
    (session page_without_final_stats "0" "1").

(** What [updateProgress] needs to reach the completion notice: a positive
    total [n] that the rated set has reached, the two progress elements,
    the modal, and no [#final-stats] list. *)
Definition announces (n : Z) (w : world) : Prop :=
  totalTrajectories (this w) = Int n
  /\ 0 < n
  /\ n <= Z.of_nat (size (ratedTrajectories (this w)))
  /\ is_Some (progress_fill (document w))
  /\ is_Some (progress_percent (document w))
  /\ is_Some (completion_modal (document w))
  /\ final_stats (document w) = None.

(** A session for a video announced with no trajectories, after one
    accepted rating. *)
Definition rated_session_of_empty_video : world :=
  exec (selectRating "5";; submitRating accepted)
    (session page_without_final_stats "0" "0").

(** One accepted rating of trajectory [i] with the star [stars]. *)
Definition rate (i : Z) (stars : string) : M unit :=
  setCurrentTrajectory (Num (Int i));;
  selectRating stars;;
  submitRating accepted.

(** Trajectories 0, 1 and 2 of a three-trajectory video are rated within
    one instance; every submission is accepted. *)
Definition three_ratings (d : Dom) (a b c : string) : world :=
  exec (rate 0 a;; rate 1 b;; rate 2 c) (session d "0" "3").

(** The arithmetic mean of the specification. *)
Definition mean (ratings : list Z) : Q :=
  inject_Z (fold_right Z.add 0 ratings) / inject_Z (Z.of_nat (length ratings)).

(** ** The page as a reactive system

    [bindEvents] wires the stars, the slider and the eight buttons to the
    methods; the event loop also delivers due timers and settled requests.
    A response event stands for the continuation of the method after its
    [await]; the events put no order between a request and its response,
    so every interleaving the page can see is among the event lists.  The
    two hover listeners of a star touch only its classes; they are
    modelled with the stars. *)
Inductive ui_event : Type :=
| StarClick (rating : string)           (* selectRating(dataset.rating) *)
| SliderInput (value : Q)               (* updateSmoothness *)
| SubmitClick                           (* submitRating, up to its await *)
| RatingResponse (r : response)         (* submitRating, after its await *)
| RegenerateClick                       (* regenerateGif, up to its await *)
| GifResponse (now : Z) (r : response)  (* regenerateGif, after its await *)
| SkipClick
| PrevClick                             (* navigateTrajectory(-1) *)
| NextClick                             (* navigateTrajectory(1) *)
| ExportClick
| ViewAllClick
| UploadNewClick
| TimerFires (cb : callback).

Definition dispatch (e : ui_event) : M unit :=
  match e with
  | StarClick rating => selectRating rating
  | SliderInput value => updateSmoothness value
  | SubmitClick => submitRating_send;; mret tt
  | RatingResponse r => submitRating_settle r
  | RegenerateClick => regenerateGif_send;; mret tt
  | GifResponse now r => regenerateGif_settle now r
  | SkipClick => skipTrajectory
  | PrevClick => navigateTrajectory (Int (-1))
  | NextClick => navigateTrajectory (Int 1)
  | ExportClick => exportResults
  | ViewAllClick => viewAllTrajectories
  | UploadNewClick => uploadNewVideo
  | TimerFires cb => run_callback cb
  end.

(** The page after a list of events, oldest first. *)
Definition dispatch_all (events : list ui_event) (w : world) : world :=
  fold_left (fun w e => exec (dispatch e) w) events w.

(** A call from outside the class: a page event or one of the two public
    setters. *)
Inductive call : Type :=
| Event (e : ui_event)
| SetVideoInfo (filename : option string) (totalTrajectories : num)
| SetCurrentTrajectory (trajectoryId : value).

Definition perform (c : call) : M unit :=
  match c with
  | Event e => dispatch e
  | SetVideoInfo filename totalTrajectories => setVideoInfo filename totalTrajectories
  | SetCurrentTrajectory trajectoryId => setCurrentTrajectory trajectoryId
  end.

Definition perform_all (calls : list call) (w : world) : world :=
  fold_left (fun w c => exec (perform c) w) calls w.

(** The progress value [updateProgress] computes in a world. *)
Definition progress_of (w : world) : number :=
  mul (div_size (size (ratedTrajectories (this w))) (totalTrajectories (this w))) 100.

(** A computation that shows no completion notice and leaves the display
    of the completion modal as it was. *)
Definition quiet {A} (m : M A) : Prop :=
  forall w,
    completion_notices (exec m w) = completion_notices w
    /\ completion_modal (document (exec m w)) = completion_modal (document w).

Definition gif_started_notice : event := Notification "🔄 Создаем новый GIF..." "info".
Definition gif_updated_notice : event := Notification "✅ GIF обновлен!" "success".
Definition gif_error_notice : event := Notification "❌ Ошибка создания GIF" "error".
Definition export_error_notice : event :=
  Notification "❌ Ошибка экспорта результатов" "error".

(** The request [regenerateGif] sends from a world. *)
Definition gif_request (w : world) : event :=
  Fetch (RegenerateGif (videoFilename (this w)) (currentTrajectoryId (this w))
           (smoothnessFactor (this w))).

(** The request [submitRating] sends from a world. *)
Definition rating_request (w : world) : event :=
  Fetch (RateTrajectory (videoFilename (this w)) (currentTrajectoryId (this w))
           (currentRating (this w))
           (match comment (document w) with Some v => v | None => EmptyString end)
           (smoothnessFactor (this w))).

(** The statistics request that follows an accepted rating, if any. *)
Definition statistics_requests (w : world) : list event :=
  if truthy_str (videoFilename (this w))
  then [Fetch (VideoStatistics (videoFilename (this w)))]
  else [].

(** Whether both progress elements exist on a page. *)
Definition has_progress_elements (d : Dom) : bool :=
  match progress_fill d, progress_percent d with
  | Some _, Some _ => true
  | _, _ => false
  end.

(** A computation that neither adds nor removes a progress element. *)
Definition keeps_progress_elements {A} (m : M A) : Prop :=
  forall w,
    has_progress_elements (document (exec m w))
    = has_progress_elements (document w).

(** ** The stars

    The [<i>] elements under [.stars], in document order.  Of each class
    list only the two classes the methods add and remove are kept.  The
    methods compare the position of a star with their argument by
    [index < rating]; [rating] below is that argument read as a number. *)
Record star_classes : Type := {
  selected : bool;
  active : bool
}.

Definition index_below (index : nat) (rating : number) : bool :=
  match rating with
  | NotANumber => false
  | Infinity => true
  | Finite q => negb (Qle_bool q (inject_Z (Z.of_nat index)))
  end.

Definition hoverRating (rating : number) (stars : list star_classes) : list star_classes :=
  imap (fun index star =>
          if index_below index rating
          then {| selected := selected star; active := true |}
          else {| selected := selected star; active := false |})
       stars.

Definition clearHover (stars : list star_classes) : list star_classes :=
  (fun star => {| selected := selected star; active := false |}) <$> stars.

(** The star half of [selectRating]. *)
Definition selectRating_stars (rating : number) (stars : list star_classes) : list star_classes :=
  imap (fun index star =>
          if index_below index rating
          then {| selected := true; active := false |}
          else {| selected := false; active := false |})
       stars.

(** The star half of [setCurrentTrajectory]. *)
Definition setCurrentTrajectory_stars (stars : list star_classes) : list star_classes :=
  (fun _ => {| selected := false; active := false |}) <$> stars.

(** A computation whose new effects all satisfy [P]; the effects that were
    there stay, in order. *)
Definition emits_only (P : event -> bool) {A} (m : M A) : Prop :=
  forall w, exists es,
    effects (exec m w) = effects w ++ es /\ forallb P es = true.

(** *** The body on the wire

    The two POST requests send [JSON.stringify] of an object built from
    the fields.  For a numeric property [JSON.stringify] writes an integer
    as it is, writes [NaN] and [null] as [null], and leaves the property
    out when its value is [undefined]. *)
Inductive json_number : Type :=
| JOmitted
| JNull
| JNumber (z : Z).

#[global] Instance json_number_eq_dec : EqDecision json_number.
Proof. solve_decision. Defined.

Definition stringify_num (n : num) : json_number :=
  match n with
  | NaN => JNull
  | Int z => JNumber z
  end.

Definition stringify_value (v : value) : json_number :=
  match v with
  | Null => JNull
  | Undefined => JOmitted
  | Num n => stringify_num n
  end.

(** The body of a rating request as it is sent. *)
Record rating_body : Type := {
  video_filename_sent : option string;
  trajectory_id_sent : json_number;
  rating_sent : json_number;
  comment_sent : string;
  smoothness_factor_sent : Q
}.

Definition stringify (r : request) : option rating_body :=
  match r with
  | RateTrajectory video_filename trajectory_id rating comment smoothness_factor =>
      Some {| video_filename_sent := video_filename;
              trajectory_id_sent := stringify_value trajectory_id;
              rating_sent := stringify_num rating;
              comment_sent := comment;
              smoothness_factor_sent := smoothness_factor |}
  | _ => None
  end.



(** The bodies of the rating requests a world has sent, oldest first. *)
Definition rating_bodies (w : world) : list rating_body :=
  omap (fun e => match e with Fetch r => stringify r | _ => None end) (effects w).

(** A page whose hidden index does not parse, with five stars chosen. *)
Definition unparsed_index_session : world :=
  exec (selectRating "5") (session full_page "abc" "3").

Definition is_statistics_request (e : event) : bool :=
  match e with
  | Fetch (VideoStatistics _) => true
  | _ => false
  end.

Definition is_accepted_rating (e : ui_event) : bool :=
  match e with
  | RatingResponse (Response true (Some _)) => true
  | _ => false
  end.

(** How many statistics requests a world has sent. *)
Definition count_statistics_requests (w : world) : nat :=
  length (filter is_statistics_request (effects w)).

(** ** The statistics panel

    [loadStatistics] after its [await], with [updateStatisticsDisplay].
    The three elements of the panel are kept apart from [Dom]: no other
    method reads or writes them. *)

(** The body of a statistics response; a field is [None] when the
    property is absent. *)
Record statistics : Type := {
  total_rated : option num;
  average_rating : option number
}.

(** The text of [#avg-rating]: a number, or the literal ['0.0']. *)
Inductive average_text : Type :=
| AverageValue (x : number)
| AverageDefault.

Record StatsPanel : Type := {
  total_rated_el : option num;          (* #total-rated *)
  avg_rating_el : option average_text;  (* #avg-rating *)
  remaining_el : option num             (* #remaining *)
}.

Inductive statistics_response : Type :=
| StatisticsNetworkError
| StatisticsResponse (ok : bool) (json : option statistics).

(** ToBoolean on a number of the full range. *)
Definition truthy_number (x : number) : bool :=
  match x with
  | NotANumber => false
  | Infinity => true
  | Finite q => negb (Qeq_bool q 0)
  end.

(** [stats.total_rated || 0]. *)
Definition total_rated_or_zero (stats : statistics) : num :=
  match total_rated stats with
  | Some n => if truthy_num n then n else Int 0
  | None => Int 0
  end.

Definition updateStatisticsDisplay (totalTrajectories : num) (stats : statistics)
    (panel : StatsPanel) : StatsPanel :=
  {| total_rated_el := assign (total_rated_or_zero stats) (total_rated_el panel);
     avg_rating_el :=
       assign
         (match average_rating stats with
          | Some x => if truthy_number x then AverageValue x else AverageDefault
          | None => AverageDefault
          end)
         (avg_rating_el panel);
     remaining_el :=
       assign (sub totalTrajectories (total_rated_or_zero stats)) (remaining_el panel) |}.

Definition loadStatistics_settle (totalTrajectories : num) (r : statistics_response)
    (panel : StatsPanel) : StatsPanel :=
  match r with
  | StatisticsResponse true (Some stats) =>
      updateStatisticsDisplay totalTrajectories stats panel
  | _ => panel
  end.

(** The most recent star click in a list of events (oldest first), and the
    most recent slider input. *)
Fixpoint last_star (events : list ui_event) : option string :=
  match events with
  | [] => None
  | e :: rest =>
      match last_star rest with
      | Some rating => Some rating
      | None => match e with StarClick rating => Some rating | _ => None end
      end
  end.

Fixpoint last_slider (events : list ui_event) : option Q :=
  match events with
  | [] => None
  | e :: rest =>
      match last_slider rest with
      | Some value => Some value
      | None => match e with SliderInput value => Some value | _ => None end
      end
  end.

(** A computation that leaves the submit button as it was. *)
Definition keeps_submit_button {A} (m : M A) : Prop :=
  forall w, submit_rating (document (exec m w)) = submit_rating (document w).

(** A computation that leaves the fields of the instance as they were,
    whether it returns or throws. *)
Definition keeps_this {A} (m : M A) : Prop :=
  forall w, this (exec m w) = this w.

(** ** Properties *)

Create HintDb frame.

Ltac run :=
  unfold exec, result, navigateTrajectory, submitRating, submitRating_send,
    submitRating_settle, regenerateGif, regenerateGif_send, regenerateGif_settle,
    selectRating, setCurrentTrajectory, showNotification, loadStatistics,
    modify_this, modify_document, try_catch, emit, throw,
    get_this, get_document, put_this, put_document,
    mbind, M_bind, bind, mret, M_ret, ret, logged;
  simpl.

(** [parseInt] on a few attribute values. *)
Example parseInt_demo :
  parseInt "5" = Int 5 /\ parseInt " 12px" = Int 12 /\ parseInt "-3" = Int (-3)
  /\ parseInt "0x1f" = Int 31 /\ parseInt "abc" = NaN /\ parseInt EmptyString = NaN.
Proof. repeat split; reflexivity. Qed.

(** *** Frame rules: computations that leave the fields alone *)

Lemma keeps_this_ret {A} (a : A) : keeps_this (mret a).
Proof. intros w. reflexivity. Qed.

Lemma keeps_this_throw {A} (e : exn) : keeps_this (@throw A e).
Proof. intros w. reflexivity. Qed.

Lemma keeps_this_emit (e : event) : keeps_this (emit e).
Proof. intros w. reflexivity. Qed.

Lemma keeps_this_get_this : keeps_this get_this.
Proof. intros w. reflexivity. Qed.

Lemma keeps_this_get_document : keeps_this get_document.
Proof. intros w. reflexivity. Qed.

Lemma keeps_this_modify_document (f : Dom -> Dom) : keeps_this (modify_document f).
Proof. intros w. reflexivity. Qed.

Lemma keeps_this_bind {A B} (m : M A) (k : A -> M B) :
  keeps_this m -> (forall a, keeps_this (k a)) -> keeps_this (m ≫= k).
Proof.
  intros Hm Hk w. unfold exec, mbind, M_bind, bind.
  specialize (Hm w). unfold exec in Hm.
  destruct (m w) as [[a | e] w1]; simpl in *.
  - rewrite <- Hm. apply Hk.
  - exact Hm.
Qed.

Lemma keeps_this_try_catch (m : M unit) (h : exn -> M unit) :
  keeps_this m -> (forall e, keeps_this (h e)) -> keeps_this (try_catch m h).
Proof.
  intros Hm Hh w. unfold exec, try_catch.
  specialize (Hm w). unfold exec in Hm.
  destruct (m w) as [[a | e] w1]; simpl in *.
  - exact Hm.
  - rewrite <- Hm. apply Hh.
Qed.

#[local] Hint Resolve keeps_this_ret keeps_this_throw keeps_this_emit
  keeps_this_get_this keeps_this_get_document keeps_this_modify_document : frame.

Ltac frame :=
  repeat first
    [ apply keeps_this_bind; [| intros ? ]
    | apply keeps_this_try_catch; [| intros ? ]
    | solve [ auto with frame ]
    | match goal with
      | |- keeps_this (match ?x with _ => _ end) => destruct x
      | |- keeps_this (if ?b then _ else _) => destruct b
      end ].

Lemma keeps_this_showNotification (m t : string) : keeps_this (showNotification m t).
Proof. unfold showNotification. frame. Qed.

#[local] Hint Resolve keeps_this_showNotification : frame.

Lemma keeps_this_populateFinalStats : keeps_this populateFinalStats.
Proof. unfold populateFinalStats, calculateAverageRating. frame. Qed.

#[local] Hint Resolve keeps_this_populateFinalStats : frame.

Lemma keeps_this_showCompletionModal : keeps_this showCompletionModal.
Proof. unfold showCompletionModal. frame. Qed.

#[local] Hint Resolve keeps_this_showCompletionModal : frame.

Lemma keeps_this_updateProgress : keeps_this updateProgress.
Proof. unfold updateProgress. frame. Qed.

Lemma keeps_this_loadStatistics : keeps_this loadStatistics.
Proof. unfold loadStatistics. frame. Qed.

Lemma keeps_this_navigateTrajectory (d : num) : keeps_this (navigateTrajectory d).
Proof. unfold navigateTrajectory. frame. Qed.

#[local] Hint Resolve keeps_this_updateProgress keeps_this_loadStatistics
  keeps_this_navigateTrajectory : frame.

Lemma keeps_this_regenerateGif (now : Z) (r : response) :
  keeps_this (regenerateGif now r).
Proof.
  unfold regenerateGif, regenerateGif_send, regenerateGif_settle. frame.
Qed.

Lemma keeps_this_exportResults : keeps_this exportResults.
Proof. unfold exportResults, calculateAverageRating. frame. Qed.

(** *** Navigation *)

(** C10. With no video name set ([null] or the empty string),
    [navigateTrajectory] returns at once for every direction: the world is
    untouched, so there is no transition and no notice. *)
Theorem navigateTrajectory_silent_without_video (direction : num) (w : world) :
  truthy_str (videoFilename (this w)) = false ->
  navigateTrajectory direction w = (Returned tt, w).
Proof.
  intros Hv. run. rewrite Hv. reflexivity.
Qed.

Lemma navigateTrajectory_silent_without_video_witness :
  navigateTrajectory (Int 1) (blank full_page) = (Returned tt, blank full_page).
Proof.
  apply (navigateTrajectory_silent_without_video (Int 1) (blank full_page)).
  reflexivity.
Defined.

(** C7. In a session (video name set, [0 <= currentIndex < total]) and for
    a direction of -1 or +1: stepping back from index 0 only adds the
    "first trajectory" notice, stepping forward from the last index only
    adds the "last trajectory" notice, and every other step requests the
    page of index [currentIndex + direction].  The fields and the page
    elements are the same afterwards in all three cases. *)
Theorem navigateTrajectory_boundaries (w : world) (c n direction : Z) :
  truthy_str (videoFilename (this w)) = true ->
  currentTrajectoryId (this w) = Num (Int c) ->
  totalTrajectories (this w) = Int n ->
  0 <= c < n ->
  direction = -1 \/ direction = 1 ->
  navigateTrajectory (Int direction) w =
    (Returned tt,
     logged
       (if decide (c = 0 /\ direction = -1) then first_notice
        else if decide (c = n - 1 /\ direction = 1) then last_notice
        else Navigate (TrajectoryPage (videoFilename (this w)) (Int (c + direction))))
       w).
Proof.
  intros Hv Hc Hn Hrange Hd. run. rewrite Hv, Hc, Hn. simpl.
  unfold ge, le.
  destruct (Z.ltb_spec (c + direction) 0) as [Hlt | Hge].
  - rewrite decide_True by lia. reflexivity.
  - rewrite decide_False by lia.
    destruct (Z.leb_spec n (c + direction)) as [Hle | Hgt].
    + rewrite decide_True by lia. reflexivity.
    + rewrite decide_False by lia. reflexivity.
Qed.

Lemma navigateTrajectory_boundaries_witness :
  navigateTrajectory (Int (-1)) (session full_page "0" "3") =
    (Returned tt, logged first_notice (session full_page "0" "3"))
  /\ navigateTrajectory (Int 1) (session full_page "2" "3") =
    (Returned tt, logged last_notice (session full_page "2" "3"))
  /\ navigateTrajectory (Int 1) (session full_page "1" "3") =
    (Returned tt,
     logged (Navigate (TrajectoryPage (Some "v.mp4") (Int 2)))
       (session full_page "1" "3")).
Proof.
  split; [| split].
  - apply (navigateTrajectory_boundaries (session full_page "0" "3") 0 3 (-1));
      first [reflexivity | lia].
  - apply (navigateTrajectory_boundaries (session full_page "2" "3") 2 3 1);
      first [reflexivity | lia].
  - apply (navigateTrajectory_boundaries (session full_page "1" "3") 1 3 1);
      first [reflexivity | lia].
Defined.

(** *** Submitting a rating *)

Lemma requests_logged (e : event) (w : world) :
  requests (logged e w) = requests w ++ (if is_fetch e then [e] else []).
Proof.
  unfold requests, logged. simpl. rewrite filter_app. simpl.
  unfold filter at 2. simpl. destruct (is_fetch e); reflexivity.
Qed.

(** The request goes out exactly when the rating is truthy and the index
    is neither [null] nor [undefined]. *)
Lemma submitRating_send_passes (w : world) :
  truthy_num (currentRating (this w)) = true ->
  currentTrajectoryId (this w) <> Null ->
  currentTrajectoryId (this w) <> Undefined ->
  submitRating_send w =
    (Returned true,
     logged
       (Fetch (RateTrajectory (videoFilename (this w)) (currentTrajectoryId (this w))
                 (currentRating (this w))
                 (match comment (document w) with Some v => v | None => EmptyString end)
                 (smoothnessFactor (this w))))
       w).
Proof.
  intros Hr Hn Hu. run. rewrite Hr. simpl.
  rewrite !bool_decide_eq_false_2 by assumption. reflexivity.
Qed.

Lemma submitRating_send_blocked (w : world) :
  truthy_num (currentRating (this w)) = false
  \/ currentTrajectoryId (this w) = Null
  \/ currentTrajectoryId (this w) = Undefined ->
  submitRating_send w = (Returned false, logged validation_message w).
Proof.
  intros H. run.
  destruct H as [Hr | [Hn | Hu]].
  - rewrite Hr. reflexivity.
  - rewrite Hn. rewrite orb_true_r. reflexivity.
  - rewrite Hu. rewrite orb_true_r. reflexivity.
Qed.

(** The guard does not look at the video name: with an index and a rating
    but no video name the request goes out with [video_filename] null. *)
Example submitRating_sends_without_video :
  requests
    (exec (setCurrentTrajectory (Num (Int 0));; selectRating "5";;
           submitRating NetworkError)
       (blank full_page))
  = [Fetch (RateTrajectory None (Num (Int 0)) (Int 5) EmptyString (1 # 10))].
Proof. reflexivity. Qed.

(** C3, counterexample.  At a defined but negative index the preconditions
    as the specification words them fail, and yet the request is sent. *)
Lemma submitRating_sends_at_negative_index :
  ~ spec_submit_preconditions (this negative_index_session)
  /\ requests (exec (submitRating NetworkError) negative_index_session) =
       [Fetch (RateTrajectory (Some "v.mp4") (Num (Int (-1))) (Int 5)
                 EmptyString (1 # 10))].
Proof.
  split.
  - intros (_ & (i & Hi & Hpos) & _). vm_compute in Hi.
    injection Hi as Hi. lia.
  - reflexivity.
Qed.

(** C3, as the guard is written.  When the rating is falsy (never chosen,
    0 or [NaN]) or the index is [null] or [undefined], [submitRating]
    returns after one alert: no request is recorded, and the fields (the
    rated set among them) and the page elements are as before. *)
Theorem submitRating_guard (r : response) (w : world) :
  truthy_num (currentRating (this w)) = false
  \/ currentTrajectoryId (this w) = Null
  \/ currentTrajectoryId (this w) = Undefined ->
  let w' := exec (submitRating r) w in
  effects w' = effects w ++ [validation_message]
  /\ requests w' = requests w
  /\ this w' = this w
  /\ ratedTrajectories (this w') = ratedTrajectories (this w)
  /\ document w' = document w.
Proof.
  intros H. unfold exec, submitRating, mbind, M_bind, bind.
  rewrite (submitRating_send_blocked w H). simpl.
  repeat split.
  apply (eq_trans (requests_logged validation_message w)).
  simpl. apply app_nil_r.
Qed.

Lemma submitRating_guard_witness :
  let w := session full_page "0" "3" in
  let w' := exec (submitRating accepted) w in
  effects w' = effects w ++ [validation_message]
  /\ requests w' = requests w
  /\ this w' = this w
  /\ ratedTrajectories (this w') = ratedTrajectories (this w)
  /\ document w' = document w.
Proof.
  apply (submitRating_guard accepted (session full_page "0" "3")).
  left. reflexivity.
Defined.

(** *** Choosing a rating *)

Lemma parseInt_star (n : Z) : 1 <= n <= 5 -> parseInt (star n) = Int n.
Proof.
  intros H.
  assert (Hn : n = 1 \/ n = 2 \/ n = 3 \/ n = 4 \/ n = 5) by lia.
  destruct Hn as [-> | [-> | [-> | [-> | ->]]]]; reflexivity.
Qed.

(** C8, counterexample.  A rating outside 1..5 is stored like any other,
    and the submit button is enabled for it. *)
Lemma selectRating_accepts_seven :
  let w := exec (selectRating "7") (session full_page "0" "3") in
  currentRating (this w) = Int 7
  /\ ~ (1 <= 7 <= 5)
  /\ submit_rating (document w) = Some false.
Proof.
  split; [reflexivity | split; [lia | reflexivity]].
Qed.

(** C8, as the method is written.  [selectRating] stores [parseInt] of its
    argument, whatever it is, and enables the submit button when the page
    has one; nothing else changes.  For the stars 1..5 the stored value is
    the number of the star. *)
Theorem selectRating_stores_parsed (rating : string) (w : world) :
  let w' := exec (selectRating rating) w in
  result (selectRating rating) w = Returned tt
  /\ currentRating (this w') = parseInt rating
  /\ submit_rating (document w') = assign false (submit_rating (document w))
  /\ (forall n, 1 <= n <= 5 -> rating = star n -> currentRating (this w') = Int n)
  /\ currentTrajectoryId (this w') = currentTrajectoryId (this w)
  /\ ratedTrajectories (this w') = ratedTrajectories (this w)
  /\ effects w' = effects w.
Proof.
  run. repeat split.
  intros n Hn ->. apply parseInt_star. exact Hn.
Qed.

Lemma selectRating_stores_parsed_witness :
  currentRating (this (exec (selectRating (star 4)) (session full_page "0" "3"))) = Int 4.
Proof.
  refine (proj1 (proj2 (proj2 (proj2
    (selectRating_stores_parsed (star 4) (session full_page "0" "3"))))) 4 _ _).
  - lia.
  - reflexivity.
Defined.

(** *** Failed and accepted submissions *)

Lemma submitRating_settle_failed (r : response) (w : world) :
  failed r = true ->
  submitRating_settle r w = (Returned tt, logged save_error_notice w).
Proof.
  intros H. destruct r as [| [|] [b |]]; try discriminate H; reflexivity.
Qed.

(** After an accepted response the rated set has gained the index that is
    current when the response is handled; no other field changes. *)
Lemma submitRating_settle_accepted (b : body) (w : world) :
  this (exec (submitRating_settle (Response true (Some b))) w) =
    set_ratedTrajectories
      ({[ currentTrajectoryId (this w) ]} ∪ ratedTrajectories (this w)) (this w).
Proof.
  unfold submitRating_settle.
  set (w1 := {| this := set_ratedTrajectories
                  ({[ currentTrajectoryId (this w) ]} ∪ ratedTrajectories (this w)) (this w);
                document := document w; effects := effects w |}).
  change (set_ratedTrajectories _ (this w)) with (this w1).
  assert (Hk : keeps_this
    (try_catch
       (showNotification "✅ Оценка сохранена!" "success";;
        loadStatistics;; updateProgress;; emit (SetTimeout NavigateNext 1000))
       (fun _ => showNotification "❌ Ошибка сохранения оценки" "error"))).
  { frame. }
  rewrite <- (Hk w1). reflexivity.
Qed.

(** C5. A submission that passes the guard and meets a failed response
    (transport failure, non-success status, or an unreadable body) sends
    its request, shows the error notice and changes neither the fields nor
    the page elements: the rated set and the chosen rating stay.  A retry
    that is accepted then adds the index to the rated set, which grows by
    exactly one element when the index was not rated before, and the
    chosen rating is still the same. *)
Theorem submitRating_failure_then_retry (w : world) (r : response) (b : body) :
  truthy_num (currentRating (this w)) = true ->
  currentTrajectoryId (this w) <> Null ->
  currentTrajectoryId (this w) <> Undefined ->
  failed r = true ->
  let request :=
    Fetch (RateTrajectory (videoFilename (this w)) (currentTrajectoryId (this w))
             (currentRating (this w))
             (match comment (document w) with Some v => v | None => EmptyString end)
             (smoothnessFactor (this w))) in
  let w1 := exec (submitRating r) w in
  let w2 := exec (submitRating (Response true (Some b))) w1 in
  this w1 = this w
  /\ document w1 = document w
  /\ effects w1 = effects w ++ [request; save_error_notice]
  /\ ratedTrajectories (this w2) =
       {[ currentTrajectoryId (this w) ]} ∪ ratedTrajectories (this w)
  /\ currentRating (this w2) = currentRating (this w)
  /\ (currentTrajectoryId (this w) ∉ ratedTrajectories (this w) ->
      size (ratedTrajectories (this w2)) = S (size (ratedTrajectories (this w)))).
Proof.
  intros Hr Hn Hu Hf request w1 w2.
  assert (E1 : w1 = logged save_error_notice (logged request w)).
  { unfold w1, exec, submitRating, mbind, M_bind, bind.
    rewrite (submitRating_send_passes w Hr Hn Hu).
    rewrite (submitRating_settle_failed r _ Hf). reflexivity. }
  assert (T1 : this w1 = this w) by (rewrite E1; reflexivity).
  assert (D1 : document w1 = document w) by (rewrite E1; reflexivity).
  assert (E2 : this w2 =
    set_ratedTrajectories
      ({[ currentTrajectoryId (this w) ]} ∪ ratedTrajectories (this w)) (this w)).
  { unfold w2, exec, submitRating, mbind, M_bind, bind.
    rewrite (submitRating_send_passes w1) by (rewrite T1; assumption).
    match goal with
    | |- this (snd (submitRating_settle _ ?w')) = _ =>
        pose proof (submitRating_settle_accepted b w') as Hs
    end.
    unfold exec in Hs. rewrite Hs. simpl. rewrite T1. reflexivity. }
  split; [exact T1 |]. split; [exact D1 |].
  split.
  { rewrite E1. unfold logged. simpl. rewrite <- app_assoc. reflexivity. }
  rewrite E2. simpl.
  split; [reflexivity |]. split; [reflexivity |].
  intros Hfresh. rewrite size_union by set_solver.
  rewrite size_singleton. reflexivity.
Qed.

Lemma submitRating_failure_then_retry_witness :
  let w := exec (selectRating "4") (session full_page "1" "3") in
  let w1 := exec (submitRating (Response false None)) w in
  let w2 := exec (submitRating accepted) w1 in
  this w1 = this w
  /\ ratedTrajectories (this w2) = {[ Num (Int 1) ]} ∪ ∅
  /\ currentRating (this w2) = Int 4
  /\ size (ratedTrajectories (this w2)) = 1%nat.
Proof.
  pose proof (submitRating_failure_then_retry
                (exec (selectRating "4") (session full_page "1" "3"))
                (Response false None) {| gif_path := None |}) as H.
  destruct H as (H1 & _ & _ & H4 & H5 & H6);
    [reflexivity | discriminate | discriminate | reflexivity |].
  split; [exact H1 |]. split; [exact H4 |]. split; [exact H5 |].
  apply H6. vm_compute. intros Hin. discriminate Hin.
Defined.

(** *** Regenerating the preview *)

(** At a truthy index the regeneration announces itself and sends its
    request with the fields as they are. *)
Lemma regenerateGif_send_requests (w : world) :
  truthy (currentTrajectoryId (this w)) = true ->
  regenerateGif_send w =
    (Returned true,
     logged
       (Fetch (RegenerateGif (videoFilename (this w)) (currentTrajectoryId (this w))
                 (smoothnessFactor (this w))))
       (logged (Notification "🔄 Создаем новый GIF..." "info") w)).
Proof.
  intros H. run. rewrite H. reflexivity.
Qed.

(** C6, the code at index 0.  The guard [!this.currentTrajectoryId] takes
    the defined index 0 for a missing one: [regenerateGif] returns at
    once, with no notice, no request and no new preview. *)
Theorem regenerateGif_skips_index_zero (now : Z) (r : response) (w : world) :
  currentTrajectoryId (this w) = Num (Int 0) ->
  regenerateGif now r w = (Returned tt, w).
Proof.
  intros H. run. rewrite H. reflexivity.
Qed.

Lemma regenerateGif_skips_index_zero_witness :
  regenerateGif 1700000000000
    (Response true (Some {| gif_path := Some "/static/t0_new.gif" |}))
    (session full_page "0" "3")
  = (Returned tt, session full_page "0" "3").
Proof.
  apply (regenerateGif_skips_index_zero 1700000000000
           (Response true (Some {| gif_path := Some "/static/t0_new.gif" |}))
           (session full_page "0" "3")).
  reflexivity.
Defined.

(** *** Progress and completion *)

(** The test [progress >= 100] for a positive total. *)
Lemma progress_reaches_100 (k : nat) (n : Z) :
  0 < n ->
  number_ge (mul (div_size k (Int n)) 100) 100 = true <-> n <= Z.of_nat k.
Proof.
  intros Hn. destruct n as [| p | p]; try lia.
  simpl. unfold Qle_bool. simpl. rewrite Z.leb_le.
  rewrite !Pos.mul_1_r, !Z.mul_1_r. lia.
Qed.

Ltac step :=
  cbv beta iota zeta delta
    [exec result mbind M_bind bind mret M_ret ret get_this get_document
     put_this put_document modify_this modify_document emit throw try_catch
     showNotification fst snd this document effects].

(** [updateProgress] on a page that has both progress elements. *)
Lemma updateProgress_unfold (w : world) :
  is_Some (progress_fill (document w)) ->
  is_Some (progress_percent (document w)) ->
  let progress :=
    mul (div_size (size (ratedTrajectories (this w))) (totalTrajectories (this w))) 100 in
  let w1 := {| this := this w; document := set_progress progress (document w);
               effects := effects w |} in
  updateProgress w =
    if number_ge progress 100 then showCompletionModal w1 else (Returned tt, w1).
Proof.
  intros [f Hf] [p Hp]. unfold updateProgress. step.
  destruct w as [t d e]. step. simpl in Hf, Hp. rewrite Hf, Hp.
  destruct (number_ge _ 100); reflexivity.
Qed.

(** [showCompletionModal] on a page that has the modal: with a
    [#final-stats] list the call of the missing method throws before the
    notice; without the list the notice is shown. *)
Lemma showCompletionModal_unfold (w : world) :
  is_Some (completion_modal (document w)) ->
  let w1 := {| this := this w; document := set_modal_shown (document w);
               effects := effects w |} in
  showCompletionModal w =
    match final_stats (document w) with
    | Some _ =>
        (Threw (TypeError "this.calculateAverageRating is not a function"), w1)
    | None => (Returned tt, logged completion_notice w1)
    end.
Proof.
  intros [m Hm]. unfold showCompletionModal, populateFinalStats,
    calculateAverageRating. step.
  destruct w as [t d e]. step. simpl in Hm. rewrite Hm.
  unfold set_modal_shown at 1. step. simpl final_stats.
  destruct (final_stats d); reflexivity.
Qed.

Lemma updateProgress_announces (n : Z) (w : world) :
  announces n w ->
  updateProgress w =
    (Returned tt,
     {| this := this w;
        document :=
          set_modal_shown
            (set_progress
               (mul (div_size (size (ratedTrajectories (this w))) (Int n)) 100)
               (document w));
        effects := effects w ++ [completion_notice] |}).
Proof.
  intros (Ht & Hn & Hk & Hf & Hp & Hm & Hs).
  apply (progress_reaches_100 _ _ Hn) in Hk.
  rewrite (updateProgress_unfold w Hf Hp), Ht, Hk.
  rewrite showCompletionModal_unfold; simpl document.
  - destruct Hf as [f Hf], Hp as [p Hp].
    unfold set_progress at 1. simpl final_stats. rewrite Hs. reflexivity.
  - unfold set_progress. simpl. exact Hm.
Qed.

Lemma announces_preserved (n : Z) (w : world) :
  announces n w -> announces n (exec updateProgress w).
Proof.
  intros H. unfold exec. rewrite (updateProgress_announces n w H).
  destruct H as (Ht & Hn & Hk & [f Hf] & [p Hp] & [m Hm] & Hs).
  unfold announces. simpl. rewrite Hf, Hp, Hm, Hs. simpl.
  repeat split; eauto.
Qed.

Lemma completion_notices_logged (w : world) (d : Dom) :
  completion_notices
    {| this := this w; document := d; effects := effects w ++ [completion_notice] |}
  = S (completion_notices w).
Proof.
  unfold completion_notices. simpl. rewrite filter_app, length_app.
  simpl. lia.
Qed.

(** C2, counterexample.  In a completed one-trajectory session the notice
    has been shown once; recomputing the progress shows it again, and so
    does a second accepted submission of the same trajectory. *)
Lemma completion_notice_repeats :
  complete (this completed_session)
  /\ completion_notices completed_session = 1%nat
  /\ ~ completion_latched completed_session
  /\ completion_notices (exec (submitRating accepted) completed_session) = 2%nat.
Proof.
  split; [exists 1; repeat split |].
  split; [reflexivity |].
  split; [| reflexivity].
  unfold completion_latched. vm_compute. discriminate.
Qed.

(** C2, as the tracker is written.  Whenever the rated set has reached a
    positive total and the progress elements and the modal exist,
    [updateProgress] runs the completion handler: the modal is displayed,
    whatever it was before.  There is no latch: on a page without the
    [#final-stats] list every recomputation adds one more completion
    notice, so [k] recomputations add [k] of them. *)
Theorem updateProgress_completes_every_time (w : world) (n : Z) (k : nat) :
  totalTrajectories (this w) = Int n ->
  0 < n ->
  n <= Z.of_nat (size (ratedTrajectories (this w))) ->
  is_Some (progress_fill (document w)) ->
  is_Some (progress_percent (document w)) ->
  is_Some (completion_modal (document w)) ->
  completion_modal (document (exec updateProgress w)) = Some true
  /\ this (exec updateProgress w) = this w
  /\ (final_stats (document w) = None ->
      effects (exec updateProgress w) = effects w ++ [completion_notice]
      /\ completion_notices (Nat.iter k (exec updateProgress) w)
         = (completion_notices w + k)%nat).
Proof.
  intros Ht Hn Hk Hf Hp Hm.
  split; [| split].
  - apply (progress_reaches_100 _ _ Hn) in Hk.
    unfold exec. rewrite (updateProgress_unfold w Hf Hp), Ht, Hk.
    destruct Hm as [m Hm].
    rewrite showCompletionModal_unfold; simpl document.
    + unfold set_progress at 1 2. simpl final_stats.
      destruct (final_stats (document w)); simpl; rewrite Hm; reflexivity.
    + unfold set_progress. simpl. rewrite Hm. eauto.
  - apply keeps_this_updateProgress.
  - intros Hs.
    assert (Ha : announces n w) by (unfold announces; eauto 10).
    split.
    + unfold exec. rewrite (updateProgress_announces n w Ha). reflexivity.
    + clear Ht Hn Hk Hf Hp Hm Hs.
      induction k as [| k IH]; simpl.
      * lia.
      * assert (Hi : announces n (Nat.iter k (exec updateProgress) w)).
        { clear IH. induction k as [| k IHk]; simpl;
            [exact Ha | apply announces_preserved; exact IHk]. }
        unfold exec at 1. rewrite (updateProgress_announces n _ Hi). simpl.
        rewrite completion_notices_logged, IH. lia.
Qed.

Lemma updateProgress_completes_every_time_witness :
  completion_modal (document (exec updateProgress completed_session)) = Some true
  /\ completion_notices (Nat.iter 3 (exec updateProgress) completed_session)
     = (completion_notices completed_session + 3)%nat.
Proof.
  pose proof (updateProgress_completes_every_time completed_session 1 3) as H.
  destruct H as (H1 & _ & H3);
    [ reflexivity | lia | vm_compute; discriminate
    | eexists; reflexivity | eexists; reflexivity | eexists; reflexivity |].
  split; [exact H1 |].
  apply H3. reflexivity.
Defined.

Lemma showCompletionModal_keeps_progress (w : world) :
  progress_percent (document (exec showCompletionModal w))
  = progress_percent (document w).
Proof.
  unfold showCompletionModal, populateFinalStats, calculateAverageRating. step.
  destruct w as [t d e]. step.
  destruct (completion_modal d) eqn:Hm; [| reflexivity].
  unfold set_modal_shown at 1. simpl final_stats.
  destruct (final_stats d); reflexivity.
Qed.

(** The text written to [#progress-percent] when the total is 0: never a
    number. *)
Lemma updateProgress_percent_zero_total (w : world) :
  totalTrajectories (this w) = Int 0 ->
  is_Some (progress_fill (document w)) ->
  is_Some (progress_percent (document w)) ->
  progress_percent (document (exec updateProgress w))
  = Some (match size (ratedTrajectories (this w)) with
          | O => RNaN
          | S _ => RInfinity
          end).
Proof.
  intros Ht Hf Hp. unfold exec.
  rewrite (updateProgress_unfold w Hf Hp), Ht.
  destruct Hp as [p Hp].
  destruct (size (ratedTrajectories (this w))) as [| k]; simpl.
  - rewrite Hp. reflexivity.
  - fold (exec showCompletionModal
            {| this := this w; document := set_progress Infinity (document w);
               effects := effects w |}).
    rewrite showCompletionModal_keeps_progress. simpl. rewrite Hp. reflexivity.
Qed.

(** C4, the code at a total of 0.  The constructor itself recomputes the
    progress with 0 rated out of 0: the text written is [NaN], not the 0
    of the specification.  With one rating accepted while the total is 0
    the text is [Infinity] and the completion handler runs: the modal is
    displayed and the completion notice shown. *)
Theorem updateProgress_zero_total_not_zero :
  progress_percent (document (exec constructor (blank full_page))) = Some RNaN
  /\ progress_percent (document (exec constructor (blank full_page)))
     <> Some (RInt (spec_progressPercent 0 0))
  /\ totalTrajectories (this rated_session_of_empty_video) = Int 0
  /\ progress_percent (document rated_session_of_empty_video) = Some RInfinity
  /\ completion_modal (document rated_session_of_empty_video) = Some true
  /\ completion_notices rated_session_of_empty_video = 1%nat.
Proof.
  repeat split; try reflexivity.
  vm_compute. discriminate.
Qed.

(** *** The final summary *)

(** The thresholds of [getQualityLevel] put an average of 4.0 in the
    second band. *)
Lemma getQualityLevel_of_four :
  getQualityLevel (Finite (mean [5; 3; 4])) = "Хорошее качество 👍".
Proof. reflexivity. Qed.

(** C1, the code on the scenario of the claim.  After the accepted
    ratings 5, 3, 4 of trajectories 0, 1, 2 the instance holds the three
    indices and the last rating only: its fields are those left by the
    ratings 1, 1, 4, whose mean is 2 and not 4, so no function of the
    fields yields the mean.  The summary is never produced: the third
    submission reaches [populateFinalStats], which throws at the call of
    the missing [calculateAverageRating]; [#final-stats] stays empty and
    the save-error notice is shown in place of the completion
    notice. *)
Theorem three_ratings_leave_no_average :
  let w := three_ratings full_page "5" "3" "4" in
  ratedTrajectories (this w) = {[ Num (Int 0); Num (Int 1); Num (Int 2) ]}
  /\ currentRating (this w) = Int 4
  /\ this w = this (three_ratings full_page "1" "1" "4")
  /\ Qeq (mean [5; 3; 4]) 4
  /\ Qeq (mean [1; 1; 4]) 2
  /\ ~ (exists f : TrajectoryRating -> Q,
         Qeq (f (this w)) (mean [5; 3; 4])
         /\ Qeq (f (this (three_ratings full_page "1" "1" "4"))) (mean [1; 1; 4]))
  /\ result populateFinalStats w
     = Threw (TypeError "this.calculateAverageRating is not a function")
  /\ final_stats (document w) = Some None
  /\ last (effects w) = Some save_error_notice
  /\ completion_notices w = 0%nat.
Proof.
  assert (E : this (three_ratings full_page "5" "3" "4")
              = this (three_ratings full_page "1" "1" "4"))
    by (vm_compute; reflexivity).
  intros w. subst w.
  split; [vm_compute; reflexivity |].
  split; [vm_compute; reflexivity |].
  split; [exact E |].
  split; [vm_compute; reflexivity |].
  split; [vm_compute; reflexivity |].
  split.
  { intros (f & H1 & H2). rewrite E in H1. rewrite H2 in H1.
    vm_compute in H1. discriminate H1. }
  repeat split; vm_compute; reflexivity.
Qed.

(** *** What each method does to the fields *)

Lemma keeps_this_skipTrajectory : keeps_this skipTrajectory.
Proof. unfold skipTrajectory. frame. Qed.

Lemma keeps_this_run_callback (cb : callback) : keeps_this (run_callback cb).
Proof. destruct cb. apply keeps_this_navigateTrajectory. Qed.

Lemma keeps_this_submitRating_send : keeps_this submitRating_send.
Proof. unfold submitRating_send. frame. Qed.

Lemma keeps_this_regenerateGif_send : keeps_this regenerateGif_send.
Proof. unfold regenerateGif_send. frame. Qed.

Lemma keeps_this_regenerateGif_settle (now : Z) (r : response) :
  keeps_this (regenerateGif_settle now r).
Proof. unfold regenerateGif_settle. frame. Qed.

(** A response to a rating either leaves the fields alone or adds the
    current index to the rated set. *)
Lemma submitRating_settle_this (r : response) (w : world) :
  this (exec (submitRating_settle r) w) = this w
  \/ this (exec (submitRating_settle r) w)
     = set_ratedTrajectories
         ({[ currentTrajectoryId (this w) ]} ∪ ratedTrajectories (this w)) (this w).
Proof.
  destruct (failed r) eqn:Hf.
  - left. unfold exec. rewrite (submitRating_settle_failed r w Hf). reflexivity.
  - right. destruct r as [| [|] [b |]]; try discriminate Hf.
    apply submitRating_settle_accepted.
Qed.

(** A page event changes at most one of: the chosen rating, the smoothing
    factor, the rated set (by adding the current index). *)
Lemma dispatch_this (e : ui_event) (w : world) :
  let t' := this (exec (dispatch e) w) in
  currentTrajectoryId t' = currentTrajectoryId (this w)
  /\ videoFilename t' = videoFilename (this w)
  /\ totalTrajectories t' = totalTrajectories (this w)
  /\ (ratedTrajectories t' = ratedTrajectories (this w)
      \/ ratedTrajectories t'
         = {[ currentTrajectoryId (this w) ]} ∪ ratedTrajectories (this w)).
Proof.
  assert (K : forall m : M unit, keeps_this m ->
    let t' := this (exec m w) in
    currentTrajectoryId t' = currentTrajectoryId (this w)
    /\ videoFilename t' = videoFilename (this w)
    /\ totalTrajectories t' = totalTrajectories (this w)
    /\ (ratedTrajectories t' = ratedTrajectories (this w)
        \/ ratedTrajectories t'
           = {[ currentTrajectoryId (this w) ]} ∪ ratedTrajectories (this w))).
  { intros m Hm. simpl. rewrite (Hm w). auto. }
  destruct e; simpl dispatch.
  - simpl. auto.
  - simpl. auto.
  - apply K. apply keeps_this_bind; [apply keeps_this_submitRating_send |].
    intros ?. apply keeps_this_ret.
  - simpl. destruct (submitRating_settle_this r w) as [-> | ->]; simpl; auto.
  - apply K. apply keeps_this_bind; [apply keeps_this_regenerateGif_send |].
    intros ?. apply keeps_this_ret.
  - apply K, keeps_this_regenerateGif_settle.
  - apply K, keeps_this_skipTrajectory.
  - apply K, keeps_this_navigateTrajectory.
  - apply K, keeps_this_navigateTrajectory.
  - apply K, keeps_this_exportResults.
  - apply K. unfold viewAllTrajectories. frame.
  - apply K. unfold uploadNewVideo. frame.
  - apply K, keeps_this_run_callback.
Qed.

Lemma dispatch_all_snoc (events : list ui_event) (e : ui_event) (w : world) :
  dispatch_all (events ++ [e]) w = exec (dispatch e) (dispatch_all events w).
Proof. unfold dispatch_all. rewrite fold_left_app. reflexivity. Qed.

Lemma perform_all_snoc (calls : list call) (c : call) (w : world) :
  perform_all (calls ++ [c]) w = exec (perform c) (perform_all calls w).
Proof. unfold perform_all. rewrite fold_left_app. reflexivity. Qed.

(** Over any list of page events the index, the video name and the total
    stay, and the rated set lies between what it was and what it was plus
    the index. *)
Lemma dispatch_all_this (events : list ui_event) (w : world) :
  let t' := this (dispatch_all events w) in
  currentTrajectoryId t' = currentTrajectoryId (this w)
  /\ videoFilename t' = videoFilename (this w)
  /\ totalTrajectories t' = totalTrajectories (this w)
  /\ ratedTrajectories (this w) ⊆ ratedTrajectories t'
  /\ ratedTrajectories t' ⊆ {[ currentTrajectoryId (this w) ]} ∪ ratedTrajectories (this w).
Proof.
  induction events as [| e events IH] using rev_ind.
  - simpl. repeat split; [reflexivity | apply union_subseteq_r].
  - rewrite dispatch_all_snoc. simpl in *.
    destruct IH as (Hi & Hv & Hn & Hlo & Hhi).
    destruct (dispatch_this e (dispatch_all events w)) as (Hi' & Hv' & Hn' & Hr').
    rewrite Hi', Hv', Hn', Hi, Hv, Hn. repeat split.
    + destruct Hr' as [-> | ->]; [exact Hlo |].
      etransitivity; [exact Hlo | apply union_subseteq_r].
    + destruct Hr' as [-> | ->]; [exact Hhi |].
      rewrite Hi. apply union_least; [apply union_subseteq_l | exact Hhi].
Qed.

(** X1. Whatever the page events and their order, the instance keeps its
    index, its video name and its total, and the rated set only ever gains
    the current index: nothing is removed and no other index is added. *)
Theorem page_events_rate_only_current_index (events : list ui_event) (w : world) :
  let w' := dispatch_all events w in
  currentTrajectoryId (this w') = currentTrajectoryId (this w)
  /\ videoFilename (this w') = videoFilename (this w)
  /\ totalTrajectories (this w') = totalTrajectories (this w)
  /\ ratedTrajectories (this w) ⊆ ratedTrajectories (this w')
  /\ ratedTrajectories (this w') ⊆
       {[ currentTrajectoryId (this w) ]} ∪ ratedTrajectories (this w).
Proof. apply dispatch_all_this. Qed.

(** *** Loading the page *)

(** The constructor: fresh fields, and the progress elements (when both
    exist) set from 0 rated out of 0. *)
Lemma constructor_unfold (w : world) :
  constructor w =
    (Returned tt,
     {| this := fresh;
        document :=
          match progress_fill (document w), progress_percent (document w) with
          | Some _, Some _ => set_progress NotANumber (document w)
          | _, _ => document w
          end;
        effects := effects w |}).
Proof.
  unfold constructor, init, loadStatistics, updateProgress. step.
  destruct w as [t d e]. step. simpl.
  destruct (progress_fill d), (progress_percent d); reflexivity.
Qed.

Lemma setCurrentTrajectory_unfold (trajectoryId : value) (w : world) :
  setCurrentTrajectory trajectoryId w =
    (Returned tt,
     {| this := set_currentRating (Int 0)
                  (set_currentTrajectoryId trajectoryId (this w));
        document :=
          set_nav_disabled
            (le (toNumber trajectoryId) (Int 0))
            (ge (toNumber trajectoryId) (sub (totalTrajectories (this w)) (Int 1)))
            (set_submit_disabled true (set_comment EmptyString (document w)));
        effects := effects w |}).
Proof. reflexivity. Qed.

Lemma on_load_unfold (f i n : option string) (w : world) :
  on_load f i n w =
    let w0 := exec constructor w in
    if truthy_str f && truthy_str i && truthy_str n then
      match f, i, n with
      | Some _, Some i', Some n' =>
          setCurrentTrajectory (Num (parseInt i'))
            {| this := set_videoInfo f (parseInt n') (this w0);
               document := document w0; effects := effects w0 |}
      | _, _, _ => (Returned tt, w0)
      end
    else (Returned tt, w0).
Proof.
  unfold on_load, exec. step. rewrite constructor_unfold. step.
  destruct f as [f |], i as [i |], n as [n |]; try reflexivity;
    try (destruct (truthy_str (Some f)); reflexivity).
  - destruct (truthy_str (Some f) && truthy_str (Some i) && truthy_str (Some n));
      reflexivity.
  - destruct (truthy_str (Some f) && truthy_str (Some i)); reflexivity.
Qed.

(** After the page has loaded, whatever its hidden inputs, the rated set
    is empty and nothing has been sent or shown. *)
Lemma on_load_clean (f i n : option string) (w : world) :
  ratedTrajectories (this (exec (on_load f i n) w)) = ∅
  /\ effects (exec (on_load f i n) w) = effects w
  /\ completion_modal (document (exec (on_load f i n) w))
     = completion_modal (document w).
Proof.
  unfold exec at 1 2 3. rewrite on_load_unfold.
  unfold exec. rewrite constructor_unfold. simpl.
  assert (D : completion_modal
                match progress_fill (document w), progress_percent (document w) with
                | Some _, Some _ => set_progress NotANumber (document w)
                | _, _ => document w
                end = completion_modal (document w)).
  { destruct (progress_fill (document w)), (progress_percent (document w));
      reflexivity. }
  destruct (truthy_str f && truthy_str i && truthy_str n);
    [destruct f, i, n |]; simpl; auto.
Qed.

(** X2. On the page as it is wired the index is set once, at load, so the
    rated set never holds more than one element, whatever the hidden
    inputs and whatever events follow. *)
Theorem page_session_rates_at_most_one (events : list ui_event)
    (f i n : option string) (w : world) :
  (size (ratedTrajectories (this (dispatch_all events (exec (on_load f i n) w))))
   <= 1)%nat.
Proof.
  destruct (dispatch_all_this events (exec (on_load f i n) w))
    as (_ & _ & _ & _ & Hhi).
  destruct (on_load_clean f i n w) as (He & _ & _).
  rewrite He in Hhi. apply subseteq_size in Hhi.
  rewrite size_union, size_singleton, size_empty in Hhi by set_solver.
  simpl in Hhi. exact Hhi.
Qed.

(** X3. No call from outside the class, page event or public setter, ever
    removes an index from the rated set. *)
Theorem rated_set_never_shrinks (calls : list call) (w : world) :
  ratedTrajectories (this w) ⊆ ratedTrajectories (this (perform_all calls w)).
Proof.
  induction calls as [| c calls IH] using rev_ind.
  - reflexivity.
  - rewrite perform_all_snoc. etransitivity; [exact IH |].
    destruct c as [e | filename total | trajectoryId]; simpl perform.
    + destruct (dispatch_this e (perform_all calls w)) as (_ & _ & _ & [-> | ->]);
        [reflexivity | apply union_subseteq_r].
    + reflexivity.
    + reflexivity.
Qed.

(** *** Computations that do not announce completion *)

Lemma completion_notices_app (w : world) (d : Dom) (t : TrajectoryRating)
    (es : list event) :
  completion_notices {| this := t; document := d; effects := effects w ++ es |}
  = (completion_notices w + length (filter is_completion_notice es))%nat.
Proof.
  unfold completion_notices. simpl. rewrite filter_app, length_app. reflexivity.
Qed.

Lemma quiet_ret {A} (a : A) : quiet (mret a).
Proof. intros w. split; reflexivity. Qed.

Lemma quiet_throw {A} (e : exn) : quiet (@throw A e).
Proof. intros w. split; reflexivity. Qed.

Lemma quiet_emit (e : event) : is_completion_notice e = false -> quiet (emit e).
Proof.
  intros He w. split; [| reflexivity].
  unfold exec, emit. simpl. rewrite completion_notices_app. simpl.
  unfold filter. simpl. rewrite He. simpl. lia.
Qed.

Lemma quiet_get_this : quiet get_this.
Proof. intros w. split; reflexivity. Qed.

Lemma quiet_get_document : quiet get_document.
Proof. intros w. split; reflexivity. Qed.

Lemma quiet_put_this (t : TrajectoryRating) : quiet (put_this t).
Proof. intros w. split; reflexivity. Qed.

Lemma quiet_modify_this (f : TrajectoryRating -> TrajectoryRating) :
  quiet (modify_this f).
Proof. intros w. split; reflexivity. Qed.

Lemma quiet_modify_document (f : Dom -> Dom) :
  (forall d, completion_modal (f d) = completion_modal d) ->
  quiet (modify_document f).
Proof. intros Hf w. split; [reflexivity | apply Hf]. Qed.

Lemma quiet_bind {A B} (m : M A) (k : A -> M B) :
  quiet m -> (forall a, quiet (k a)) -> quiet (m ≫= k).
Proof.
  intros Hm Hk w. unfold exec, mbind, M_bind, bind.
  specialize (Hm w). unfold exec in Hm.
  destruct (m w) as [[a | e] w1]; simpl in *.
  - destruct (Hk a w1) as [H1 H2]. unfold exec in H1, H2.
    rewrite H1, H2. exact Hm.
  - exact Hm.
Qed.

Lemma quiet_try_catch (m : M unit) (h : exn -> M unit) :
  quiet m -> (forall e, quiet (h e)) -> quiet (try_catch m h).
Proof.
  intros Hm Hh w. unfold exec, try_catch.
  specialize (Hm w). unfold exec in Hm.
  destruct (m w) as [[a | e] w1]; simpl in *.
  - exact Hm.
  - destruct (Hh e w1) as [H1 H2]. unfold exec in H1, H2.
    rewrite H1, H2. exact Hm.
Qed.

Ltac hush :=
  repeat first
    [ apply quiet_modify_this
    | apply quiet_modify_document; intros ?; reflexivity
    | apply quiet_emit; reflexivity
    | apply quiet_ret | apply quiet_throw | apply quiet_get_this
    | apply quiet_get_document | apply quiet_put_this
    | apply quiet_try_catch; [| intros ? ]
    | apply quiet_bind; [| intros ? ]
    | match goal with
      | |- quiet (match ?x with _ => _ end) => destruct x
      | |- quiet (if ?b then _ else _) => destruct b
      end ].

(** Every page event other than a response to a rating is quiet. *)
Lemma quiet_dispatch (e : ui_event) :
  (forall r, e <> RatingResponse r) -> quiet (dispatch e).
Proof.
  intros He. destruct e; simpl dispatch;
    try (exfalso; eapply He; reflexivity).
  - unfold selectRating. hush.
  - unfold updateSmoothness. hush.
  - unfold submitRating_send. hush.
  - unfold regenerateGif_send, showNotification. hush.
  - unfold regenerateGif_settle, showNotification. hush.
  - unfold skipTrajectory, showNotification. hush.
  - unfold navigateTrajectory, showNotification. hush.
  - unfold navigateTrajectory, showNotification. hush.
  - unfold exportResults, calculateAverageRating, showNotification. hush.
  - unfold viewAllTrajectories. hush.
  - unfold uploadNewVideo. hush.
  - destruct cb. unfold run_callback, navigateTrajectory, showNotification. hush.
Qed.

(** With at most one index rated, the progress test fails for every total
    other than 0 and 1 ([NaN] and negative totals included). *)
Lemma progress_below_100 (k : nat) (t : num) :
  (k <= 1)%nat -> t <> Int 0 -> t <> Int 1 ->
  number_ge (mul (div_size k t) 100) 100 = false.
Proof.
  intros Hk H0 H1. destruct t as [| z]; [reflexivity |].
  destruct z as [| p | p].
  - congruence.
  - destruct (number_ge (mul (div_size k (Int (Z.pos p))) 100) 100) eqn:E;
      [| reflexivity].
    apply progress_reaches_100 in E; [| lia].
    assert (p = 1%positive) by lia. congruence.
  - destruct k as [| [| k]]; [reflexivity | reflexivity | lia].
Qed.

Lemma updateProgress_below (w : world) :
  number_ge (progress_of w) 100 = false ->
  completion_notices (exec updateProgress w) = completion_notices w
  /\ completion_modal (document (exec updateProgress w))
     = completion_modal (document w).
Proof.
  intros H.
  destruct (progress_fill (document w)) as [f |] eqn:Hf;
    [destruct (progress_percent (document w)) as [p |] eqn:Hp |].
  - unfold exec. rewrite updateProgress_unfold by (rewrite ?Hf, ?Hp; eauto).
    unfold progress_of in H. rewrite H. split; reflexivity.
  - unfold exec, updateProgress. step. destruct w as [t d e]. step.
    simpl in Hf, Hp. rewrite Hf, Hp. split; reflexivity.
  - unfold exec, updateProgress. step. destruct w as [t d e]. step.
    simpl in Hf. rewrite Hf. split; reflexivity.
Qed.

Lemma loadStatistics_unfold (w : world) :
  loadStatistics w =
    (Returned tt,
     if truthy_str (videoFilename (this w))
     then logged (Fetch (VideoStatistics (videoFilename (this w)))) w
     else w).
Proof.
  unfold loadStatistics. step. destruct w as [t d e]. step.
  destruct (truthy_str (videoFilename t)); reflexivity.
Qed.

(** An accepted rating, step by step: the index joins the rated set, the
    notice is shown, the statistics are requested, the progress is
    recomputed; the timer for the next trajectory is set only if that
    recomputation returns, and the save-error notice is shown if it
    throws. *)
Lemma submitRating_settle_accepted_unfold (b : body) (w : world) :
  submitRating_settle (Response true (Some b)) w =
    let w1 :=
      {| this := set_ratedTrajectories
                   ({[ currentTrajectoryId (this w) ]} ∪ ratedTrajectories (this w))
                   (this w);
         document := document w;
         effects := effects w ++ [saved_notice] |} in
    let w2 := exec loadStatistics w1 in
    match updateProgress w2 with
    | (Returned _, w3) => (Returned tt, logged (SetTimeout NavigateNext 1000) w3)
    | (Threw _, w3) => (Returned tt, logged save_error_notice w3)
    end.
Proof.
  destruct w as [t d e].
  match goal with |- _ = ?r => set (rhs := r) end.
  unfold submitRating_settle. step.
  rewrite loadStatistics_unfold. step.
  subst rhs. unfold exec. rewrite loadStatistics_unfold.
  cbn [this document effects set_ratedTrajectories videoFilename fst snd].
  unfold saved_notice.
  destruct (truthy_str (videoFilename t));
    match goal with
    | |- context [updateProgress ?x] =>
        destruct (updateProgress x) as [[[] | ex] [t3 d3 e3]]
    end; reflexivity.
Qed.

Lemma submitRating_settle_below (r : response) (w : world) :
  number_ge
    (mul (div_size
            (size ({[ currentTrajectoryId (this w) ]} ∪ ratedTrajectories (this w)))
            (totalTrajectories (this w))) 100) 100 = false ->
  completion_notices (exec (submitRating_settle r) w) = completion_notices w
  /\ completion_modal (document (exec (submitRating_settle r) w))
     = completion_modal (document w).
Proof.
  intros H. destruct (failed r) eqn:Hf.
  - unfold exec. rewrite (submitRating_settle_failed r w Hf). simpl.
    split; [| reflexivity].
    unfold logged. rewrite completion_notices_app. simpl. lia.
  - destruct r as [| [|] [b |]]; try discriminate Hf.
    unfold exec. rewrite submitRating_settle_accepted_unfold. cbv zeta.
    match goal with
    | |- context [exec loadStatistics ?x] => set (w1 := x)
    end.
    set (w2 := exec loadStatistics w1).
    assert (Q2 : completion_notices w2 = completion_notices w
                 /\ completion_modal (document w2) = completion_modal (document w)).
    { assert (Hq : quiet loadStatistics) by (unfold loadStatistics; hush).
      destruct (Hq w1) as [A B]. fold w2 in A, B. rewrite A, B. unfold w1.
      split; [| reflexivity]. rewrite completion_notices_app. simpl. lia. }
    assert (T2 : this w2 = this w1) by apply keeps_this_loadStatistics.
    assert (P : number_ge (progress_of w2) 100 = false).
    { unfold progress_of. rewrite T2. exact H. }
    destruct (updateProgress_below w2 P) as [U1 U2]. unfold exec in U1, U2.
    destruct Q2 as [Q2a Q2b].
    destruct (updateProgress w2) as [[[] | ex] w3]; simpl in *;
      unfold logged; rewrite completion_notices_app; simpl;
      rewrite U1, U2, Q2a, Q2b; split; [lia | reflexivity | lia | reflexivity].
Qed.

Lemma dispatch_all_quiet (events : list ui_event) (w : world) :
  totalTrajectories (this w) <> Int 0 ->
  totalTrajectories (this w) <> Int 1 ->
  ratedTrajectories (this w) ⊆ {[ currentTrajectoryId (this w) ]} ->
  completion_notices (dispatch_all events w) = completion_notices w
  /\ completion_modal (document (dispatch_all events w))
     = completion_modal (document w).
Proof.
  intros H0 H1 Hr.
  induction events as [| e events IH] using rev_ind; [split; reflexivity |].
  rewrite dispatch_all_snoc.
  destruct (dispatch_all_this events w) as (Hi & _ & Hn & _ & Hhi).
  destruct IH as [IH1 IH2]. rewrite <- IH1, <- IH2.
  destruct e;
    try (apply quiet_dispatch; intros ?; discriminate).
  simpl dispatch. apply submitRating_settle_below.
  rewrite Hi, Hn. apply progress_below_100; [| exact H0 | exact H1].
  assert (Hs : {[ currentTrajectoryId (this w) ]}
               ∪ ratedTrajectories (this (dispatch_all events w))
               ⊆ {[ currentTrajectoryId (this w) ]}).
  { apply union_least; [reflexivity |].
    etransitivity; [exact Hhi |].
    apply union_least; [reflexivity | exact Hr]. }
  apply subseteq_size in Hs. rewrite size_singleton in Hs. exact Hs.
Qed.

Lemma on_load_fields (f i n : string) (w : world) :
  truthy_str (Some f) = true ->
  truthy_str (Some i) = true ->
  truthy_str (Some n) = true ->
  this (exec (on_load (Some f) (Some i) (Some n)) w) =
    {| currentRating := Int 0;
       currentTrajectoryId := Num (parseInt i);
       videoFilename := Some f;
       totalTrajectories := parseInt n;
       ratedTrajectories := ∅;
       smoothnessFactor := 1 # 10 |}.
Proof.
  intros Hf Hi Hn. unfold exec at 1. rewrite on_load_unfold, Hf, Hi, Hn.
  unfold exec. rewrite constructor_unfold. reflexivity.
Qed.

(** X4. A page for a video whose total is neither 0 nor 1 never reaches
    completion: whatever the events and responses, no completion notice is
    shown and the completion modal keeps the display it had.  (The index
    is fixed at load, so at most one index is ever rated.) *)
Theorem page_session_never_completes (events : list ui_event)
    (f i n : string) (w : world) :
  truthy_str (Some f) = true ->
  truthy_str (Some i) = true ->
  truthy_str (Some n) = true ->
  parseInt n <> Int 0 ->
  parseInt n <> Int 1 ->
  let w0 := exec (on_load (Some f) (Some i) (Some n)) w in
  completion_notices (dispatch_all events w0) = completion_notices w
  /\ completion_modal (document (dispatch_all events w0))
     = completion_modal (document w).
Proof.
  intros Hf Hi Hn H0 H1 w0.
  destruct (on_load_clean (Some f) (Some i) (Some n) w) as (_ & He & Hm).
  fold w0 in He, Hm.
  assert (Ht : this w0 = _) by (apply (on_load_fields f i n w); assumption).
  destruct (dispatch_all_quiet events w0) as [Q1 Q2].
  - rewrite Ht. exact H0.
  - rewrite Ht. exact H1.
  - rewrite Ht. simpl. apply empty_subseteq.
  - rewrite Q1, Q2, Hm. split; [| reflexivity].
    unfold completion_notices. rewrite He. reflexivity.
Qed.

Lemma page_session_never_completes_witness :
  let events :=
    [StarClick "5"; SubmitClick; RatingResponse accepted; TimerFires NavigateNext;
     StarClick "4"; SubmitClick; RatingResponse accepted; PrevClick; ExportClick] in
  let w0 := exec (on_load (Some "v.mp4") (Some "2") (Some "3")) (blank full_page) in
  completion_notices (dispatch_all events w0) = completion_notices (blank full_page)
  /\ completion_modal (document (dispatch_all events w0))
     = completion_modal (document (blank full_page)).
Proof.
  intros events.
  apply (page_session_never_completes events "v.mp4" "2" "3" (blank full_page));
    first [reflexivity | discriminate].
Defined.

(** X5. A page whose three hidden inputs are all present and non-empty
    starts with the video name as given, the total and the index read by
    [parseInt], no rating chosen and nothing rated; the comment is cleared
    and the submit button disabled.  Loading sends and shows nothing: the
    statistics request of [init] runs before the video name is set. *)
Theorem on_load_initialises (f i n : string) (w : world) :
  truthy_str (Some f) = true ->
  truthy_str (Some i) = true ->
  truthy_str (Some n) = true ->
  let w0 := exec (on_load (Some f) (Some i) (Some n)) w in
  result (on_load (Some f) (Some i) (Some n)) w = Returned tt
  /\ this w0 =
       {| currentRating := Int 0;
          currentTrajectoryId := Num (parseInt i);
          videoFilename := Some f;
          totalTrajectories := parseInt n;
          ratedTrajectories := ∅;
          smoothnessFactor := 1 # 10 |}
  /\ effects w0 = effects w
  /\ comment (document w0) = assign EmptyString (comment (document w))
  /\ submit_rating (document w0) = assign true (submit_rating (document w)).
Proof.
  intros Hf Hi Hn w0.
  split; [| split; [apply on_load_fields; assumption |]].
  - unfold result. rewrite on_load_unfold, Hf, Hi, Hn. reflexivity.
  - unfold w0, exec. rewrite on_load_unfold, Hf, Hi, Hn.
    unfold exec. rewrite constructor_unfold. simpl.
    destruct (progress_fill (document w)), (progress_percent (document w));
      repeat split.
Qed.

Lemma on_load_initialises_witness :
  let w0 := exec (on_load (Some "v.mp4") (Some "2") (Some "7")) (blank full_page) in
  this w0 =
    {| currentRating := Int 0;
       currentTrajectoryId := Num (parseInt "2");
       videoFilename := Some "v.mp4";
       totalTrajectories := parseInt "7";
       ratedTrajectories := ∅;
       smoothnessFactor := 1 # 10 |}
  /\ effects w0 = effects (blank full_page).
Proof.
  destruct (on_load_initialises "v.mp4" "2" "7" (blank full_page))
    as (_ & H2 & H3 & _); [reflexivity | reflexivity | reflexivity |].
  split; [exact H2 | exact H3].
Defined.

(** X6. If one of the hidden inputs is missing or empty, neither setter
    runs and the page is inert: the fields are those of the constructor,
    submitting only raises the validation alert, and navigation and
    regeneration do nothing at all. *)
Theorem on_load_incomplete_is_inert (f i n : option string) (w : world) :
  truthy_str f && truthy_str i && truthy_str n = false ->
  let w0 := exec (on_load f i n) w in
  this w0 = fresh
  /\ effects w0 = effects w
  /\ (forall r, submitRating r w0 = (Returned tt, logged validation_message w0))
  /\ (forall direction, navigateTrajectory direction w0 = (Returned tt, w0))
  /\ (forall now r, regenerateGif now r w0 = (Returned tt, w0)).
Proof.
  intros H w0.
  assert (Ht : this w0 = fresh).
  { unfold w0, exec. rewrite on_load_unfold, H.
    unfold exec. rewrite constructor_unfold. reflexivity. }
  split; [exact Ht |].
  split; [apply on_load_clean |].
  split; [| split].
  - intros r. unfold submitRating, mbind, M_bind, bind.
    rewrite submitRating_send_blocked by (rewrite Ht; left; reflexivity).
    reflexivity.
  - intros direction. unfold navigateTrajectory. step.
    destruct w0 as [t d e]. simpl in Ht. subst t. reflexivity.
  - intros now r. unfold regenerateGif, regenerateGif_send. step.
    destruct w0 as [t d e]. simpl in Ht. subst t. reflexivity.
Qed.

Lemma on_load_incomplete_is_inert_witness :
  let w0 := exec (on_load (Some "v.mp4") None (Some "3")) (blank full_page) in
  this w0 = fresh
  /\ submitRating accepted w0 = (Returned tt, logged validation_message w0).
Proof.
  destruct (on_load_incomplete_is_inert (Some "v.mp4") None (Some "3")
              (blank full_page)) as (H1 & _ & H3 & _); [reflexivity |].
  split; [exact H1 | apply H3].
Defined.

(** *** Arriving at a trajectory *)

(** X7. [setCurrentTrajectory] forgets the chosen rating: whatever was
    selected before, the index is the new one, the comment is cleared, the
    submit button disabled, the rated set untouched, and a submission made
    before a new star is clicked only raises the validation alert. *)
Theorem setCurrentTrajectory_resets_rating (trajectoryId : value) (r : response)
    (w : world) :
  let w1 := exec (setCurrentTrajectory trajectoryId) w in
  currentRating (this w1) = Int 0
  /\ currentTrajectoryId (this w1) = trajectoryId
  /\ ratedTrajectories (this w1) = ratedTrajectories (this w)
  /\ comment (document w1) = assign EmptyString (comment (document w))
  /\ submit_rating (document w1) = assign true (submit_rating (document w))
  /\ effects w1 = effects w
  /\ submitRating r w1 = (Returned tt, logged validation_message w1).
Proof.
  simpl. repeat split.
Qed.

(** [navigateTrajectory] in one equation. *)
Lemma navigateTrajectory_unfold (direction : num) (w : world) :
  navigateTrajectory direction w =
    (Returned tt,
     if negb (truthy_str (videoFilename (this w))) then w
     else
       let newTrajectoryId :=
         add (toNumber (currentTrajectoryId (this w))) direction in
       logged
         (if lt newTrajectoryId (Int 0) then first_notice
          else if ge newTrajectoryId (totalTrajectories (this w)) then last_notice
          else Navigate (TrajectoryPage (videoFilename (this w)) newTrajectoryId))
         w).
Proof.
  unfold navigateTrajectory. step. destruct w as [t d e]. step.
  destruct (negb (truthy_str (videoFilename t))); [reflexivity |].
  cbv zeta.
  destruct (lt (add (toNumber (currentTrajectoryId t)) direction) (Int 0));
    [reflexivity |].
  destruct (ge (add (toNumber (currentTrajectoryId t)) direction)
              (totalTrajectories t)); reflexivity.
Qed.

(** X8. The navigation buttons tell the truth.  After arriving at an index
    inside the range, a disabled "previous" button means a click would
    only show the first-trajectory notice and an enabled one means a click
    requests the page before; likewise for "next" and the last-trajectory
    notice. *)
Theorem nav_buttons_match_boundaries (i n : Z) (w : world) :
  truthy_str (videoFilename (this w)) = true ->
  totalTrajectories (this w) = Int n ->
  0 <= i < n ->
  is_Some (prev_trajectory (document w)) ->
  is_Some (next_trajectory (document w)) ->
  let w1 := exec (setCurrentTrajectory (Num (Int i))) w in
  exists p q : bool,
    prev_trajectory (document w1) = Some p
    /\ next_trajectory (document w1) = Some q
    /\ navigateTrajectory (Int (-1)) w1 =
         (Returned tt,
          logged (if p then first_notice
                  else Navigate (TrajectoryPage (videoFilename (this w)) (Int (i - 1))))
            w1)
    /\ navigateTrajectory (Int 1) w1 =
         (Returned tt,
          logged (if q then last_notice
                  else Navigate (TrajectoryPage (videoFilename (this w)) (Int (i + 1))))
            w1).
Proof.
  intros Hv Hn Hi [p0 Hp] [q0 Hq] w1.
  exists (i <=? 0), (n - 1 <=? i).
  unfold w1, exec. rewrite setCurrentTrajectory_unfold.
  rewrite !navigateTrajectory_unfold.
  cbn [this document effects snd fst set_currentRating set_currentTrajectoryId
       currentTrajectoryId videoFilename totalTrajectories set_nav_disabled
       set_submit_disabled set_comment prev_trajectory next_trajectory].
  rewrite Hp, Hq, Hn, Hv. unfold ge.
  cbn [negb assign toNumber add sub lt le].
  split; [reflexivity |]. split; [reflexivity |]. split.
  - destruct (Z.leb_spec i 0) as [H0 | H0].
    + replace (i + -1 <? 0) with true by (symmetry; apply Z.ltb_lt; lia).
      reflexivity.
    + replace (i + -1 <? 0) with false by (symmetry; apply Z.ltb_ge; lia).
      replace (n <=? i + -1) with false by (symmetry; apply Z.leb_gt; lia).
      replace (i + -1) with (i - 1) by lia. reflexivity.
  - replace (i + 1 <? 0) with false by (symmetry; apply Z.ltb_ge; lia).
    destruct (Z.leb_spec (n - 1) i) as [H1 | H1].
    + replace (n <=? i + 1) with true by (symmetry; apply Z.leb_le; lia).
      reflexivity.
    + replace (n <=? i + 1) with false by (symmetry; apply Z.leb_gt; lia).
      reflexivity.
Qed.

Lemma nav_buttons_match_boundaries_witness :
  let w := session full_page "0" "3" in
  let w1 := exec (setCurrentTrajectory (Num (Int 2))) w in
  exists p q : bool,
    prev_trajectory (document w1) = Some p
    /\ next_trajectory (document w1) = Some q
    /\ navigateTrajectory (Int (-1)) w1 =
         (Returned tt,
          logged (if p then first_notice
                  else Navigate (TrajectoryPage (videoFilename (this w)) (Int (2 - 1))))
            w1)
    /\ navigateTrajectory (Int 1) w1 =
         (Returned tt,
          logged (if q then last_notice
                  else Navigate (TrajectoryPage (videoFilename (this w)) (Int (2 + 1))))
            w1).
Proof.
  apply (nav_buttons_match_boundaries 2 3 (session full_page "0" "3"));
    first [reflexivity | lia | eexists; reflexivity].
Defined.

(** *** The quality label *)

Lemma Qle_bool_false (a b : Q) : (b < a)%Q -> Qle_bool a b = false.
Proof.
  intros H. destruct (Qle_bool a b) eqn:E; [| reflexivity].
  apply Qle_bool_iff in E. exfalso. exact (Qlt_not_le _ _ H E).
Qed.

Lemma Qle_bool_true (a b : Q) : (a <= b)%Q -> Qle_bool a b = true.
Proof. intros H. apply Qle_bool_iff. exact H. Qed.

(** X9. [getQualityLevel] is the five-band table with closed lower bounds
    at 4.5, 4, 3 and 2; it does not depend on how the average is written
    as a fraction; [NaN] falls into the lowest band. *)
Theorem getQualityLevel_bands (q q' : Q) :
  ((q == q')%Q -> getQualityLevel (Finite q) = getQualityLevel (Finite q'))
  /\ ((9 # 2 <= q)%Q -> getQualityLevel (Finite q) = "Отличное качество 🏆")
  /\ ((4 <= q)%Q -> (q < 9 # 2)%Q ->
      getQualityLevel (Finite q) = "Хорошее качество 👍")
  /\ ((3 <= q)%Q -> (q < 4)%Q ->
      getQualityLevel (Finite q) = "Удовлетворительное качество ✅")
  /\ ((2 <= q)%Q -> (q < 3)%Q ->
      getQualityLevel (Finite q) = "Требует улучшения ⚠️")
  /\ ((q < 2)%Q -> getQualityLevel (Finite q) = "Низкое качество ❌")
  /\ getQualityLevel NotANumber = "Низкое качество ❌".
Proof.
  unfold getQualityLevel, number_ge.
  split; [| split; [| split; [| split; [| split; [| split]]]]].
  - intros E.
    assert (H : forall k, Qle_bool k q = Qle_bool k q').
    { intros k. destruct (Qle_bool k q') eqn:E'.
      - apply Qle_bool_iff. rewrite E. apply Qle_bool_iff. exact E'.
      - apply Qle_bool_false. rewrite E.
        destruct (Qlt_le_dec q' k) as [Hlt | Hle]; [exact Hlt |].
        apply Qle_bool_iff in Hle. congruence. }
    rewrite !H. reflexivity.
  - intros H. rewrite (Qle_bool_true _ _ H). reflexivity.
  - intros H1 H2. rewrite (Qle_bool_false _ _ H2), (Qle_bool_true _ _ H1).
    reflexivity.
  - intros H1 H2.
    rewrite (Qle_bool_false (9 # 2) q), (Qle_bool_false _ _ H2),
      (Qle_bool_true _ _ H1); [reflexivity |].
    eapply Qlt_trans; [exact H2 | reflexivity].
  - intros H1 H2.
    rewrite (Qle_bool_false (9 # 2) q), (Qle_bool_false 4 q),
      (Qle_bool_false _ _ H2), (Qle_bool_true _ _ H1); [reflexivity | |];
      (eapply Qlt_trans; [exact H2 | reflexivity]).
  - intros H.
    rewrite (Qle_bool_false (9 # 2) q), (Qle_bool_false 4 q),
      (Qle_bool_false 3 q), (Qle_bool_false _ _ H); [reflexivity | | |];
      (eapply Qlt_trans; [exact H | reflexivity]).
  - reflexivity.
Qed.

Lemma getQualityLevel_bands_witness :
  getQualityLevel (Finite (17 # 4)) = getQualityLevel (Finite (34 # 8))
  /\ getQualityLevel (Finite (17 # 4)) = "Хорошее качество 👍".
Proof.
  destruct (getQualityLevel_bands (17 # 4) (34 # 8)) as (H1 & _ & H3 & _).
  split; [apply H1; reflexivity |].
  apply H3; [discriminate | reflexivity].
Defined.

(** *** Exporting *)

(** X10. [exportResults] never produces a download: in every state the
    call of the missing [calculateAverageRating] throws inside the [try],
    and the only outcome is the export-error notice. *)
Theorem exportResults_never_downloads (w : world) :
  exportResults w = (Returned tt, logged export_error_notice w).
Proof. destruct w as [t d e]. reflexivity. Qed.

(** *** Outcomes of a regeneration *)

Lemma regenerateGif_send_unfold (w : world) :
  truthy (currentTrajectoryId (this w)) = true ->
  regenerateGif_send w =
    (Returned true, logged (gif_request w) (logged gif_started_notice w)).
Proof.
  intros H. unfold regenerateGif_send. step. destruct w as [t d e]. step.
  simpl in H. rewrite H. reflexivity.
Qed.

Lemma regenerateGif_settle_unfold (now : Z) (r : response) (w : world) :
  regenerateGif_settle now r w =
    (Returned tt,
     match r with
     | Response true (Some b) =>
         logged gif_updated_notice
           match gif_path b with
           | Some p =>
               if truthy_str (Some p) then
                 {| this := this w;
                    document :=
                      set_gif {| gif_path_shown := p; gif_stamp := Some now |}
                        (document w);
                    effects := effects w |}
               else w
           | None => w
           end
     | _ => logged gif_error_notice w
     end).
Proof.
  destruct w as [t d e].
  destruct r as [| [|] [b |]]; try reflexivity.
  unfold regenerateGif_settle. step.
  destruct (gif_path b) as [p |]; [| reflexivity].
  destruct (truthy_str (Some p)); reflexivity.
Qed.

(** X11. At a truthy index [regenerateGif] announces itself, sends one
    request and never touches the fields.  A failed response leaves every
    page element as it was and shows the error notice.  An accepted
    response with a non-empty [gif_path] sets the image source to that
    path stamped with the current time.  An accepted response without a
    usable path changes nothing, and still shows the success notice. *)
Theorem regenerateGif_outcomes (now : Z) (r : response) (w : world) :
  truthy (currentTrajectoryId (this w)) = true ->
  let w' := exec (regenerateGif now r) w in
  let sent := effects w ++ [gif_started_notice; gif_request w] in
  this w' = this w
  /\ (failed r = true ->
      document w' = document w /\ effects w' = sent ++ [gif_error_notice])
  /\ (forall b p, r = Response true (Some b) -> gif_path b = Some p ->
      truthy_str (Some p) = true ->
      document w' = set_gif {| gif_path_shown := p; gif_stamp := Some now |} (document w)
      /\ effects w' = sent ++ [gif_updated_notice])
  /\ (forall b, r = Response true (Some b) -> truthy_str (gif_path b) = false ->
      document w' = document w /\ effects w' = sent ++ [gif_updated_notice]).
Proof.
  intros H w' sent.
  split; [apply keeps_this_regenerateGif |].
  assert (E : w' = exec (regenerateGif_settle now r)
                     (logged (gif_request w) (logged gif_started_notice w))).
  { unfold w', exec, regenerateGif, mbind, M_bind, bind.
    rewrite (regenerateGif_send_unfold w H). reflexivity. }
  rewrite E. unfold exec. rewrite regenerateGif_settle_unfold.
  unfold sent, logged. cbn [snd this document effects].
  split; [| split].
  - intros Hf. destruct r as [| [|] [b |]]; try discriminate Hf;
      cbn [this document effects]; rewrite <- !app_assoc; split; reflexivity.
  - intros b p -> Hp Ht. rewrite Hp, Ht. cbn [this document effects].
    rewrite <- !app_assoc. split; reflexivity.
  - intros b -> Ht. destruct (gif_path b) as [p |]; [rewrite Ht |];
      cbn [this document effects]; rewrite <- !app_assoc; split; reflexivity.
Qed.

Lemma regenerateGif_outcomes_witness :
  let w := session full_page "1" "3" in
  let r := Response true (Some {| gif_path := Some "/static/t1_new.gif" |}) in
  let w' := exec (regenerateGif 1700000000000 r) w in
  this w' = this w
  /\ document w' =
       set_gif {| gif_path_shown := "/static/t1_new.gif";
                  gif_stamp := Some 1700000000000 |} (document w).
Proof.
  intros w r.
  destruct (regenerateGif_outcomes 1700000000000 r w) as (H1 & _ & H3 & _);
    [reflexivity |].
  split; [exact H1 |].
  apply (H3 {| gif_path := Some "/static/t1_new.gif" |} "/static/t1_new.gif");
    reflexivity.
Defined.

(** *** An accepted rating, from click to timer *)

Lemma updateProgress_below_unfold (w : world) :
  number_ge (progress_of w) 100 = false ->
  updateProgress w =
    (Returned tt,
     {| this := this w;
        document :=
          match progress_fill (document w), progress_percent (document w) with
          | Some _, Some _ => set_progress (progress_of w) (document w)
          | _, _ => document w
          end;
        effects := effects w |}).
Proof.
  intros H.
  destruct (progress_fill (document w)) as [f |] eqn:Hf;
    [destruct (progress_percent (document w)) as [p |] eqn:Hp |].
  - rewrite updateProgress_unfold by (rewrite ?Hf, ?Hp; eauto).
    unfold progress_of in H. rewrite H. reflexivity.
  - unfold updateProgress. step. destruct w as [t d e]. step.
    simpl in Hf, Hp. rewrite Hf, Hp. reflexivity.
  - unfold updateProgress. step. destruct w as [t d e]. step.
    simpl in Hf. rewrite Hf. reflexivity.
Qed.

Lemma submitRating_unfold_accepted (b : body) (w : world) :
  truthy_num (currentRating (this w)) = true ->
  currentTrajectoryId (this w) <> Null ->
  currentTrajectoryId (this w) <> Undefined ->
  submitRating (Response true (Some b)) w =
    let w2 :=
      {| this := set_ratedTrajectories
                   ({[ currentTrajectoryId (this w) ]} ∪ ratedTrajectories (this w))
                   (this w);
         document := document w;
         effects := effects w ++ [rating_request w; saved_notice]
                      ++ statistics_requests w |} in
    match updateProgress w2 with
    | (Returned _, w3) => (Returned tt, logged (SetTimeout NavigateNext 1000) w3)
    | (Threw _, w3) => (Returned tt, logged save_error_notice w3)
    end.
Proof.
  intros Hr Hn Hu. unfold submitRating, mbind, M_bind, bind.
  rewrite (submitRating_send_passes w Hr Hn Hu).
  rewrite submitRating_settle_accepted_unfold. cbv zeta.
  unfold exec. rewrite loadStatistics_unfold.
  unfold statistics_requests, logged, rating_request.
  cbn [snd this document effects set_ratedTrajectories videoFilename
       currentTrajectoryId ratedTrajectories].
  destruct (truthy_str (videoFilename (this w)));
    cbn [this document effects]; rewrite <- ?app_assoc; simpl app;
    rewrite ?app_nil_r; reflexivity.
Qed.

(** X12. An accepted rating that does not complete the video (the rated
    set, with the index added, stays below a total [n]): the effects are,
    in order, the request, the saved notice, the statistics request when a
    video name is set, and the one-second timer for the next trajectory;
    the index is in the rated set; the completion modal and the summary
    list are not touched. *)
Theorem accepted_rating_advances (b : body) (n : Z) (w : world) :
  truthy_num (currentRating (this w)) = true ->
  currentTrajectoryId (this w) <> Null ->
  currentTrajectoryId (this w) <> Undefined ->
  totalTrajectories (this w) = Int n ->
  Z.of_nat (size ({[ currentTrajectoryId (this w) ]} ∪ ratedTrajectories (this w))) < n ->
  let rated := {[ currentTrajectoryId (this w) ]} ∪ ratedTrajectories (this w) in
  let w' := exec (submitRating (Response true (Some b))) w in
  effects w' =
    effects w ++ [rating_request w; saved_notice] ++ statistics_requests w
      ++ [SetTimeout NavigateNext 1000]
  /\ ratedTrajectories (this w') = rated
  /\ currentRating (this w') = currentRating (this w)
  /\ currentTrajectoryId (this w') = currentTrajectoryId (this w)
  /\ completion_modal (document w') = completion_modal (document w)
  /\ final_stats (document w') = final_stats (document w).
Proof.
  intros Hr Hn Hu Ht Hlt rated w'.
  assert (Hpos : 0 < n) by lia.
  unfold w', exec. rewrite (submitRating_unfold_accepted b w Hr Hn Hu). cbv zeta.
  rewrite updateProgress_below_unfold.
  2:{ unfold progress_of. cbn [this set_ratedTrajectories ratedTrajectories
                               totalTrajectories]. rewrite Ht.
      destruct (number_ge _ 100) eqn:E; [| reflexivity].
      apply progress_reaches_100 in E; [lia | exact Hpos]. }
  unfold logged, progress_of.
  cbn [snd this document effects set_ratedTrajectories ratedTrajectories
       totalTrajectories currentRating currentTrajectoryId].
  rewrite Ht. fold rated.
  split; [rewrite <- !app_assoc; reflexivity |].
  split; [reflexivity |]. split; [reflexivity |]. split; [reflexivity |].
  destruct (progress_fill (document w)) as [f |] eqn:Hf;
    [destruct (progress_percent (document w)) as [p |] eqn:Hp |];
    split; reflexivity.
Qed.

Lemma accepted_rating_advances_witness :
  let w := exec (selectRating "4") (session full_page "1" "3") in
  let w' := exec (submitRating accepted) w in
  effects w' =
    effects w ++ [rating_request w; saved_notice] ++ statistics_requests w
      ++ [SetTimeout NavigateNext 1000]
  /\ completion_modal (document w') = completion_modal (document w).
Proof.
  intros w.
  destruct (accepted_rating_advances {| gif_path := None |} 3 w)
    as (H1 & _ & _ & _ & H5 & _);
    [reflexivity | discriminate | discriminate | reflexivity
    | vm_compute; reflexivity |].
  split; [exact H1 | exact H5].
Defined.

(** X13. An accepted rating that completes the video on a page with the
    progress elements, the modal and the [#final-stats] list: the index is
    recorded and the saved notice shown, the modal is displayed, and then
    the summary throws, so the save-error notice follows the saved notice,
    the summary list is left as it was, no completion notice appears and
    no timer for the next trajectory is set. *)
Theorem completing_rating_reports_error (b : body) (n : Z) (w : world) :
  truthy_num (currentRating (this w)) = true ->
  currentTrajectoryId (this w) <> Null ->
  currentTrajectoryId (this w) <> Undefined ->
  totalTrajectories (this w) = Int n ->
  0 < n ->
  n <= Z.of_nat (size ({[ currentTrajectoryId (this w) ]} ∪ ratedTrajectories (this w))) ->
  is_Some (progress_fill (document w)) ->
  is_Some (progress_percent (document w)) ->
  is_Some (completion_modal (document w)) ->
  is_Some (final_stats (document w)) ->
  let w' := exec (submitRating (Response true (Some b))) w in
  effects w' =
    effects w ++ [rating_request w; saved_notice] ++ statistics_requests w
      ++ [save_error_notice]
  /\ ratedTrajectories (this w') =
       {[ currentTrajectoryId (this w) ]} ∪ ratedTrajectories (this w)
  /\ completion_modal (document w') = Some true
  /\ final_stats (document w') = final_stats (document w).
Proof.
  intros Hr Hn Hu Ht Hpos Hge [f Hf] [p Hp] [m Hm] [s Hs] w'.
  unfold w', exec. rewrite (submitRating_unfold_accepted b w Hr Hn Hu). cbv zeta.
  rewrite updateProgress_unfold by (cbn [document]; rewrite ?Hf, ?Hp; eauto).
  cbn [this document effects set_ratedTrajectories ratedTrajectories
       totalTrajectories].
  rewrite Ht.
  apply (progress_reaches_100 _ _ Hpos) in Hge. rewrite Hge.
  rewrite showCompletionModal_unfold
    by (unfold set_progress; cbn [document completion_modal]; rewrite Hm; eauto).
  unfold set_progress at 1. cbn [document final_stats]. rewrite Hs.
  unfold logged, set_progress, set_modal_shown.
  cbn [snd this document effects completion_modal final_stats
       set_ratedTrajectories ratedTrajectories].
  rewrite Hm, Hs. cbn [assign].
  split; [rewrite <- !app_assoc; reflexivity |]. repeat split.
Qed.

Lemma completing_rating_reports_error_witness :
  let w := exec (selectRating "5") (session full_page "0" "1") in
  let w' := exec (submitRating accepted) w in
  effects w' =
    effects w ++ [rating_request w; saved_notice] ++ statistics_requests w
      ++ [save_error_notice]
  /\ completion_modal (document w') = Some true.
Proof.
  intros w.
  destruct (completing_rating_reports_error {| gif_path := None |} 1 w)
    as (H1 & _ & H3 & _);
    [ reflexivity | discriminate | discriminate | reflexivity | lia
    | vm_compute; discriminate
    | eexists; reflexivity | eexists; reflexivity | eexists; reflexivity
    | eexists; reflexivity |].
  split; [exact H1 | exact H3].
Defined.

(** *** Pages without a progress bar *)

Lemma kpe_ret {A} (a : A) : keeps_progress_elements (mret a).
Proof. intros w. reflexivity. Qed.

Lemma kpe_throw {A} (e : exn) : keeps_progress_elements (@throw A e).
Proof. intros w. reflexivity. Qed.

Lemma kpe_emit (e : event) : keeps_progress_elements (emit e).
Proof. intros w. reflexivity. Qed.

Lemma kpe_get_this : keeps_progress_elements get_this.
Proof. intros w. reflexivity. Qed.

Lemma kpe_get_document : keeps_progress_elements get_document.
Proof. intros w. reflexivity. Qed.

Lemma kpe_put_this (t : TrajectoryRating) : keeps_progress_elements (put_this t).
Proof. intros w. reflexivity. Qed.

Lemma kpe_modify_this (f : TrajectoryRating -> TrajectoryRating) :
  keeps_progress_elements (modify_this f).
Proof. intros w. reflexivity. Qed.

Lemma kpe_modify_document (f : Dom -> Dom) :
  (forall d, has_progress_elements (f d) = has_progress_elements d) ->
  keeps_progress_elements (modify_document f).
Proof. intros Hf w. apply Hf. Qed.

Lemma kpe_bind {A B} (m : M A) (k : A -> M B) :
  keeps_progress_elements m -> (forall a, keeps_progress_elements (k a)) ->
  keeps_progress_elements (m ≫= k).
Proof.
  intros Hm Hk w. unfold exec, mbind, M_bind, bind.
  specialize (Hm w). unfold exec in Hm.
  destruct (m w) as [[a | e] w1]; simpl in *.
  - rewrite <- Hm. apply Hk.
  - exact Hm.
Qed.

Lemma kpe_try_catch (m : M unit) (h : exn -> M unit) :
  keeps_progress_elements m -> (forall e, keeps_progress_elements (h e)) ->
  keeps_progress_elements (try_catch m h).
Proof.
  intros Hm Hh w. unfold exec, try_catch.
  specialize (Hm w). unfold exec in Hm.
  destruct (m w) as [[a | e] w1]; simpl in *.
  - exact Hm.
  - rewrite <- Hm. apply Hh.
Qed.

Ltac setter_keeps :=
  let d := fresh "d" in
  intros d; unfold has_progress_elements; simpl;
  destruct (progress_fill d), (progress_percent d); reflexivity.

Ltac sift :=
  repeat first
    [ apply kpe_modify_this
    | apply kpe_modify_document; setter_keeps
    | apply kpe_emit | apply kpe_ret | apply kpe_throw | apply kpe_get_this
    | apply kpe_get_document | apply kpe_put_this
    | apply kpe_try_catch; [| intros ? ]
    | apply kpe_bind; [| intros ? ]
    | match goal with
      | |- keeps_progress_elements (match ?x with _ => _ end) => destruct x
      | |- keeps_progress_elements (if ?b then _ else _) => destruct b
      end ].

Lemma kpe_updateProgress : keeps_progress_elements updateProgress.
Proof.
  unfold updateProgress, showCompletionModal, populateFinalStats,
    calculateAverageRating, showNotification. sift.
Qed.

(** No page event adds or removes a progress element. *)
Lemma kpe_dispatch (e : ui_event) : keeps_progress_elements (dispatch e).
Proof.
  destruct e; simpl dispatch.
  - unfold selectRating. sift.
  - unfold updateSmoothness. sift.
  - unfold submitRating_send. sift.
  - unfold submitRating_settle, loadStatistics, showNotification.
    destruct r as [| [|] [b |]]; sift; apply kpe_updateProgress.
  - unfold regenerateGif_send, showNotification. sift.
  - unfold regenerateGif_settle, showNotification. sift.
  - unfold skipTrajectory, showNotification. sift.
  - unfold navigateTrajectory, showNotification. sift.
  - unfold navigateTrajectory, showNotification. sift.
  - unfold exportResults, calculateAverageRating, showNotification. sift.
  - unfold viewAllTrajectories. sift.
  - unfold uploadNewVideo. sift.
  - destruct cb. unfold run_callback, navigateTrajectory, showNotification. sift.
Qed.

Lemma updateProgress_without_elements (w : world) :
  has_progress_elements (document w) = false ->
  updateProgress w = (Returned tt, w).
Proof.
  intros H. unfold updateProgress. step. destruct w as [t d e]. step.
  unfold has_progress_elements in H. simpl in H.
  destruct (progress_fill d); [destruct (progress_percent d) |];
    try discriminate H; reflexivity.
Qed.

(** X14. On a page that lacks [#progress-fill] or [#progress-percent] the
    completion handler is out of reach: whatever the fields, the events
    and the responses, no completion notice is shown and the completion
    modal keeps its display, even when every trajectory has been rated. *)
Theorem page_without_progress_never_completes (events : list ui_event) (w : world) :
  has_progress_elements (document w) = false ->
  completion_notices (dispatch_all events w) = completion_notices w
  /\ completion_modal (document (dispatch_all events w))
     = completion_modal (document w).
Proof.
  intros H.
  assert (Hall : forall es,
    has_progress_elements (document (dispatch_all es w)) = false
    /\ completion_notices (dispatch_all es w) = completion_notices w
    /\ completion_modal (document (dispatch_all es w))
       = completion_modal (document w)).
  { induction es as [| e es IH] using rev_ind; [auto |].
    rewrite dispatch_all_snoc. destruct IH as (IH0 & IH1 & IH2).
    split; [rewrite kpe_dispatch; exact IH0 |].
    rewrite <- IH1, <- IH2.
    destruct e; try (apply quiet_dispatch; intros ?; discriminate).
    simpl dispatch. destruct (failed r) eqn:Hf.
    - unfold exec. rewrite (submitRating_settle_failed r _ Hf). simpl.
      split; [| reflexivity].
      unfold logged. rewrite completion_notices_app. simpl. lia.
    - destruct r as [| [|] [b |]]; try discriminate Hf.
      unfold exec. rewrite submitRating_settle_accepted_unfold. cbv zeta.
      rewrite updateProgress_without_elements.
      + unfold exec. rewrite loadStatistics_unfold.
        unfold logged, completion_notices. cbn [snd this document effects].
        destruct (truthy_str _); cbn [this document effects];
          rewrite ?filter_app, ?length_app; simpl; split; try reflexivity; lia.
      + unfold exec. rewrite loadStatistics_unfold.
        cbn [snd]. destruct (truthy_str _); exact IH0. }
  apply Hall.
Qed.

Lemma page_without_progress_never_completes_witness :
  let page :=
    {| comment := Some EmptyString; submit_rating := Some true;
       prev_trajectory := None; next_trajectory := None;
       progress_fill := None; progress_percent := Some (RInt 0);
       completion_modal := Some false; final_stats := None;
       trajectory_gif := None |} in
  let w := session page "0" "1" in
  let events := [StarClick "5"; SubmitClick; RatingResponse accepted] in
  completion_notices (dispatch_all events w) = completion_notices w
  /\ completion_modal (document (dispatch_all events w))
     = completion_modal (document w).
Proof.
  intros page w events.
  apply (page_without_progress_never_completes events w). reflexivity.
Defined.

(** *** The stars *)

Lemma index_below_nat (i k : nat) :
  index_below i (Finite (inject_Z (Z.of_nat k))) = bool_decide (i < k)%nat.
Proof.
  unfold index_below, Qle_bool, inject_Z. simpl. rewrite !Z.mul_1_r.
  destruct (Z.leb_spec (Z.of_nat k) (Z.of_nat i)) as [H | H]; simpl.
  - rewrite bool_decide_eq_false_2 by lia. reflexivity.
  - rewrite bool_decide_eq_true_2 by lia. reflexivity.
Qed.

(** X15. Hovering is cosmetic: [hoverRating] changes no [selected] mark
    and no star count, and whatever was hovered, [clearHover] afterwards
    gives what [clearHover] alone gives; on stars none of which is
    highlighted (as [selectRating] and [setCurrentTrajectory] leave them)
    hovering and leaving restores the stars exactly. *)
Theorem hover_is_undone_by_clearHover (rating : number) (stars : list star_classes) :
  selected <$> hoverRating rating stars = selected <$> stars
  /\ length (hoverRating rating stars) = length stars
  /\ clearHover (hoverRating rating stars) = clearHover stars
  /\ (Forall (fun star => active star = false) stars ->
      clearHover (hoverRating rating stars) = stars).
Proof.
  assert (E : clearHover (hoverRating rating stars) = clearHover stars).
  { apply list_eq. intros i. unfold clearHover, hoverRating.
    rewrite !list_lookup_fmap, list_lookup_imap.
    destruct (stars !! i) as [s |]; [| reflexivity]. simpl.
    destruct (index_below i rating); reflexivity. }
  split; [| split; [| split]].
  - apply list_eq. intros i. unfold hoverRating.
    rewrite !list_lookup_fmap, list_lookup_imap.
    destruct (stars !! i) as [s |]; [| reflexivity]. simpl.
    destruct (index_below i rating); reflexivity.
  - apply length_imap.
  - exact E.
  - intros H. rewrite E. clear E. unfold clearHover.
    induction stars as [| [s a] stars IH]; [reflexivity |].
    inversion H as [| ? ? Ha Hrest]; subst. simpl in Ha. subst a.
    rewrite fmap_cons. f_equal. apply IH. exact Hrest.
Qed.

Lemma hover_is_undone_by_clearHover_witness :
  let stars := selectRating_stars (Finite 3) (replicate 5 {| selected := false; active := false |}) in
  clearHover (hoverRating (Finite 5) stars) = stars.
Proof.
  intros stars.
  apply (hover_is_undone_by_clearHover (Finite 5) stars).
  repeat constructor.
Defined.

(** X16. Clicking star [k] marks exactly the first [k] stars as selected
    and highlights none, whatever the marks were before; arriving at a
    trajectory clears every mark. *)
Theorem selectRating_stars_marks_prefix (k : nat) (stars : list star_classes) :
  selectRating_stars (Finite (inject_Z (Z.of_nat k))) stars
  = replicate (min k (length stars)) {| selected := true; active := false |}
    ++ replicate (length stars - k) {| selected := false; active := false |}
  /\ setCurrentTrajectory_stars stars
     = replicate (length stars) {| selected := false; active := false |}.
Proof.
  split.
  - apply list_eq. intros i. unfold selectRating_stars.
    rewrite list_lookup_imap, index_below_nat.
    destruct (stars !! i) as [s |] eqn:Hs; simpl.
    + apply lookup_lt_Some in Hs.
      destruct (decide (i < k)%nat) as [Hlt | Hge].
      * rewrite bool_decide_eq_true_2 by exact Hlt.
        rewrite lookup_app_l by (rewrite length_replicate; lia).
        rewrite lookup_replicate_2 by lia. reflexivity.
      * rewrite bool_decide_eq_false_2 by exact Hge.
        rewrite lookup_app_r by (rewrite length_replicate; lia).
        rewrite length_replicate, lookup_replicate_2 by lia. reflexivity.
    + apply lookup_ge_None in Hs. symmetry. apply lookup_ge_None.
      rewrite length_app, !length_replicate. lia.
  - unfold setCurrentTrajectory_stars.
    induction stars as [| s stars IH]; [reflexivity |].
    rewrite fmap_cons, IH. reflexivity.
Qed.

(** *** What leaves the page *)

Section EmitsOnly.

Variable P : event -> bool.

Lemma emits_only_silent {A} (m : M A) :
  (forall w, effects (exec m w) = effects w) -> emits_only P m.
Proof.
  intros H w. exists []. rewrite app_nil_r. split; [apply H | reflexivity].
Qed.

Lemma emits_only_ret {A} (a : A) : emits_only P (mret a).
Proof. apply emits_only_silent. reflexivity. Qed.

Lemma emits_only_throw {A} (e : exn) : emits_only P (@throw A e).
Proof. apply emits_only_silent. reflexivity. Qed.

Lemma emits_only_get_this : emits_only P get_this.
Proof. apply emits_only_silent. reflexivity. Qed.

Lemma emits_only_get_document : emits_only P get_document.
Proof. apply emits_only_silent. reflexivity. Qed.

Lemma emits_only_put_this (t : TrajectoryRating) : emits_only P (put_this t).
Proof. apply emits_only_silent. reflexivity. Qed.

Lemma emits_only_modify_this (f : TrajectoryRating -> TrajectoryRating) :
  emits_only P (modify_this f).
Proof. apply emits_only_silent. reflexivity. Qed.

Lemma emits_only_modify_document (f : Dom -> Dom) :
  emits_only P (modify_document f).
Proof. apply emits_only_silent. reflexivity. Qed.

Lemma emits_only_emit (e : event) : P e = true -> emits_only P (emit e).
Proof.
  intros He w. exists [e]. split; [reflexivity |]. simpl. rewrite He. reflexivity.
Qed.

Lemma emits_only_bind {A B} (m : M A) (k : A -> M B) :
  emits_only P m -> (forall a, emits_only P (k a)) -> emits_only P (m ≫= k).
Proof.
  intros Hm Hk w. unfold exec, mbind, M_bind, bind.
  destruct (Hm w) as (es & E & F). unfold exec in E.
  destruct (m w) as [[a | e] w1]; simpl in *.
  - destruct (Hk a w1) as (es' & E' & F'). unfold exec in E'.
    exists (es ++ es'). rewrite E', E, app_assoc. split; [reflexivity |].
    rewrite forallb_app, F, F'. reflexivity.
  - exists es. split; assumption.
Qed.

Lemma emits_only_try_catch (m : M unit) (h : exn -> M unit) :
  emits_only P m -> (forall e, emits_only P (h e)) -> emits_only P (try_catch m h).
Proof.
  intros Hm Hh w. unfold exec, try_catch.
  destruct (Hm w) as (es & E & F). unfold exec in E.
  destruct (m w) as [[a | e] w1]; simpl in *.
  - exists es. split; assumption.
  - destruct (Hh e w1) as (es' & E' & F'). unfold exec in E'.
    exists (es ++ es'). rewrite E', E, app_assoc. split; [reflexivity |].
    rewrite forallb_app, F, F'. reflexivity.
Qed.

End EmitsOnly.

Ltac emitting :=
  repeat first
    [ apply emits_only_modify_this
    | apply emits_only_modify_document
    | apply emits_only_emit; reflexivity
    | apply emits_only_ret | apply emits_only_throw | apply emits_only_get_this
    | apply emits_only_get_document | apply emits_only_put_this
    | apply emits_only_try_catch; [| intros ? ]
    | apply emits_only_bind; [| intros ? ]
    | match goal with
      | |- emits_only _ (match ?x with _ => _ end) => destruct x
      | |- emits_only _ (if ?b then _ else _) => destruct b
      end ].

Lemma emits_only_updateProgress (P : event -> bool) :
  (forall m t, P (Notification m t) = true) -> emits_only P updateProgress.
Proof.
  intros HP.
  unfold updateProgress, showCompletionModal, populateFinalStats,
    calculateAverageRating, showNotification.
  repeat first
    [ apply emits_only_emit; apply HP
    | progress emitting ].
Qed.







(** On a page whose hidden index does not parse the guard passes and the
    body sent has [null] under [trajectory_id]. *)
Example unparsed_index_is_sent_as_null :
  currentTrajectoryId (this unparsed_index_session) = Num NaN
  /\ rating_bodies (exec (submitRating NetworkError) unparsed_index_session)
     = [{| video_filename_sent := Some "v.mp4";
           trajectory_id_sent := JNull;
           rating_sent := JNumber 5;
           comment_sent := EmptyString;
           smoothness_factor_sent := 1 # 10 |}].
Proof. split; reflexivity. Qed.

Lemma filter_none {A} (P : A -> bool) (l : list A) :
  forallb (fun x => negb (P x)) l = true -> filter P l = [].
Proof.
  induction l as [| x l IH]; [reflexivity |]. simpl. intros H.
  apply andb_prop in H as [Hx Hl]. rewrite filter_cons.
  destruct (P x); [discriminate Hx |]. simpl. apply IH. exact Hl.
Qed.

Lemma count_statistics_requests_app (t : TrajectoryRating) (d : Dom)
    (es es' : list event) :
  count_statistics_requests {| this := t; document := d; effects := es ++ es' |}
  = (length (filter is_statistics_request es)
     + length (filter is_statistics_request es'))%nat.
Proof.
  unfold count_statistics_requests. simpl. rewrite filter_app, length_app.
  reflexivity.
Qed.

Lemma no_statistics_request (m : M unit) (w : world) :
  emits_only (fun e => negb (is_statistics_request e)) m ->
  count_statistics_requests (exec m w) = count_statistics_requests w.
Proof.
  intros H. destruct (H w) as (es & E & F).
  unfold count_statistics_requests. rewrite E, filter_app, length_app.
  rewrite (filter_none _ _ F). simpl. lia.
Qed.

(** Every page event other than an accepted rating sends no statistics
    request. *)
Lemma dispatch_no_statistics (e : ui_event) :
  is_accepted_rating e = false ->
  emits_only (fun e => negb (is_statistics_request e)) (dispatch e).
Proof.
  intros He. destruct e; simpl dispatch.
  - unfold selectRating. emitting.
  - unfold updateSmoothness. emitting.
  - unfold submitRating_send. emitting.
  - unfold submitRating_settle, showNotification.
    destruct r as [| [|] [b |]]; try discriminate He; emitting.
  - unfold regenerateGif_send, showNotification. emitting.
  - unfold regenerateGif_settle, showNotification. emitting.
  - unfold skipTrajectory, showNotification. emitting.
  - unfold navigateTrajectory, showNotification. emitting.
  - unfold navigateTrajectory, showNotification. emitting.
  - unfold exportResults, calculateAverageRating, showNotification. emitting.
  - unfold viewAllTrajectories. emitting.
  - unfold uploadNewVideo. emitting.
  - destruct cb. unfold run_callback, navigateTrajectory, showNotification. emitting.
Qed.

(** An accepted rating sends one statistics request when a video name is
    set and none otherwise. *)
Lemma accepted_rating_statistics (b : body) (w : world) :
  count_statistics_requests (exec (submitRating_settle (Response true (Some b))) w)
  = (count_statistics_requests w
     + if truthy_str (videoFilename (this w)) then 1 else 0)%nat.
Proof.
  unfold exec. rewrite submitRating_settle_accepted_unfold. cbv zeta.
  match goal with
  | |- context [exec loadStatistics ?x] => set (w1 := x)
  end.
  set (w2 := exec loadStatistics w1).
  assert (C2 : count_statistics_requests w2
               = (count_statistics_requests w
                  + if truthy_str (videoFilename (this w)) then 1 else 0)%nat).
  { unfold w2, exec. rewrite loadStatistics_unfold. unfold w1, logged.
    cbn [snd this document effects set_ratedTrajectories videoFilename].
    unfold count_statistics_requests.
    destruct (truthy_str (videoFilename (this w)));
      cbn [effects]; rewrite ?filter_app, ?length_app; simpl; lia. }
  pose proof (no_statistics_request updateProgress w2
                (emits_only_updateProgress _ (fun _ _ => eq_refl))) as C3.
  unfold exec in C3.
  destruct (updateProgress w2) as [[[] | ex] [t3 d3 e3]]; simpl in C3;
    unfold logged; cbn [snd this document effects];
    rewrite count_statistics_requests_app; simpl;
    unfold count_statistics_requests in C3 at 1; simpl in C3;
    rewrite C3, C2; lia.
Qed.

(** X18. The statistics are requested only in answer to an accepted
    rating, and once per rating: over any list of events the number of
    statistics requests grows by at most the number of accepted rating
    responses (and by exactly that number while a video name is set). *)
Theorem statistics_follow_accepted_ratings (events : list ui_event) (w : world) :
  (count_statistics_requests (dispatch_all events w)
   <= count_statistics_requests w + length (filter is_accepted_rating events))%nat
  /\ (truthy_str (videoFilename (this w)) = true ->
      count_statistics_requests (dispatch_all events w)
      = (count_statistics_requests w
         + length (filter is_accepted_rating events))%nat).
Proof.
  assert (Step : forall e w0,
    count_statistics_requests (exec (dispatch e) w0)
    = (count_statistics_requests w0
       + if is_accepted_rating e && truthy_str (videoFilename (this w0))
         then 1 else 0)%nat).
  { intros e w0. destruct (is_accepted_rating e) eqn:He.
    - destruct e; try discriminate He.
      destruct r as [| [|] [b |]]; try discriminate He.
      simpl dispatch. apply accepted_rating_statistics.
    - rewrite (no_statistics_request _ _ (dispatch_no_statistics e He)).
      simpl. lia. }
  induction events as [| e events IH] using rev_ind.
  - simpl. split; [lia |]. intros _. lia.
  - rewrite dispatch_all_snoc, Step, filter_app, length_app.
    destruct (dispatch_all_this events w) as (_ & Hv & _).
    simpl in Hv. rewrite Hv. destruct IH as [IH1 IH2].
    rewrite filter_cons, filter_nil.
    destruct (is_accepted_rating e); simpl.
    + split.
      * destruct (truthy_str (videoFilename (this w))); lia.
      * intros Ht. rewrite Ht, (IH2 Ht). lia.
    + split; [lia |]. intros Ht. rewrite (IH2 Ht). lia.
Qed.

Lemma statistics_follow_accepted_ratings_witness :
  let w := session full_page "1" "3" in
  let events := [StarClick "4"; SubmitClick; RatingResponse accepted;
                 SubmitClick; RatingResponse (Response false None)] in
  count_statistics_requests (dispatch_all events w)
  = (count_statistics_requests w + length (filter is_accepted_rating events))%nat.
Proof.
  intros w events.
  apply (statistics_follow_accepted_ratings events w). reflexivity.
Defined.

(** *** The statistics panel *)

(** X19. The statistics panel after a response.  A failed response
    (transport failure, non-success status, unreadable body) leaves the
    panel as it was.  For an integer total [n] and a served count [k], the
    count shown and the remainder shown add up to [n]; nothing clamps the
    remainder, which is negative when the served count exceeds the total.
    A count that is absent, 0 or [NaN] is shown as 0 with the whole total
    remaining, and an average that is absent, 0 or [NaN] is shown as the
    literal default. *)
Theorem statistics_panel_adds_up (n k : Z) (stats : statistics)
    (r : statistics_response) (panel : StatsPanel) :
  let served := loadStatistics_settle (Int n) (StatisticsResponse true (Some stats)) panel in
  (match r with StatisticsResponse true (Some _) => False | _ => True end ->
   loadStatistics_settle (Int n) r panel = panel)
  /\ (total_rated stats = Some (Int k) ->
      total_rated_el served = assign (Int k) (total_rated_el panel)
      /\ remaining_el served = assign (Int (n - k)) (remaining_el panel)
      /\ k + (n - k) = n)
  /\ (total_rated stats = None \/ total_rated stats = Some NaN ->
      total_rated_el served = assign (Int 0) (total_rated_el panel)
      /\ remaining_el served = assign (Int n) (remaining_el panel))
  /\ (average_rating stats = None \/ average_rating stats = Some NotANumber
      \/ average_rating stats = Some (Finite 0) ->
      avg_rating_el served = assign AverageDefault (avg_rating_el panel)).
Proof.
  split; [| split; [| split]].
  - intros H. destruct r as [| [|] [s |]]; try reflexivity. contradiction.
  - intros Hk. simpl. unfold total_rated_or_zero. rewrite Hk. simpl.
    destruct (Z.eqb_spec k 0) as [-> | Hne]; simpl;
      repeat split; try lia; f_equal; f_equal; lia.
  - intros [H | H]; simpl; unfold total_rated_or_zero; rewrite H; simpl;
      split; try reflexivity; f_equal; f_equal; lia.
  - intros [H | [H | H]]; simpl; rewrite H; reflexivity.
Qed.

Lemma statistics_panel_adds_up_witness :
  let panel := {| total_rated_el := Some (Int 0);
                  avg_rating_el := Some AverageDefault;
                  remaining_el := Some (Int 0) |} in
  let stats := {| total_rated := Some (Int 9); average_rating := Some (Finite (7 # 2)) |} in
  let served := loadStatistics_settle (Int 7) (StatisticsResponse true (Some stats)) panel in
  loadStatistics_settle (Int 7) StatisticsNetworkError panel = panel
  /\ total_rated_el served = Some (Int 9)
  /\ remaining_el served = Some (Int (7 - 9)).
Proof.
  intros panel stats.
  destruct (statistics_panel_adds_up 7 9 stats StatisticsNetworkError panel)
    as (H1 & H2 & _).
  split; [apply H1; exact I |].
  destruct H2 as (A & B & _); [reflexivity |].
  split; [exact A | exact B].
Defined.

(** *** The timer for the next trajectory *)

(** X20. The timer set by an accepted rating or by a skip always advances
    from the index the page was loaded with: whatever events happen during
    the delay, when it fires in a session (video name set, index [i]
    within a total [n]) it requests the page of index [i + 1], or at the
    last index only shows the last-trajectory notice and stays; it changes
    neither the fields nor the page elements. *)
Theorem timer_advances_from_loaded_index (events : list ui_event) (i n : Z)
    (w : world) :
  truthy_str (videoFilename (this w)) = true ->
  currentTrajectoryId (this w) = Num (Int i) ->
  totalTrajectories (this w) = Int n ->
  0 <= i < n ->
  let w1 := dispatch_all events w in
  dispatch (TimerFires NavigateNext) w1 =
    (Returned tt,
     logged
       (if i =? n - 1 then last_notice
        else Navigate (TrajectoryPage (videoFilename (this w)) (Int (i + 1))))
       w1).
Proof.
  intros Hv Hi Hn Hr w1.
  destruct (dispatch_all_this events w) as (Hi' & Hv' & Hn' & _).
  fold w1 in Hi', Hv', Hn'. simpl in Hi', Hv', Hn'.
  simpl dispatch. unfold run_callback. rewrite navigateTrajectory_unfold.
  rewrite Hi', Hv', Hn', Hv, Hi, Hn. cbv zeta. unfold ge.
  cbn [negb toNumber add lt le].
  replace (i + 1 <? 0) with false by (symmetry; apply Z.ltb_ge; lia).
  destruct (Z.eqb_spec i (n - 1)) as [E | E].
  - replace (n <=? i + 1) with true by (symmetry; apply Z.leb_le; lia).
    reflexivity.
  - replace (n <=? i + 1) with false by (symmetry; apply Z.leb_gt; lia).
    reflexivity.
Qed.

Lemma timer_advances_from_loaded_index_witness :
  let w := session full_page "1" "3" in
  let w1 := dispatch_all [StarClick "4"; SubmitClick; RatingResponse accepted] w in
  dispatch (TimerFires NavigateNext) w1 =
    (Returned tt,
     logged
       (if 1 =? 3 - 1 then last_notice
        else Navigate (TrajectoryPage (videoFilename (this w)) (Int (1 + 1))))
       w1).
Proof.
  intros w.
  apply (timer_advances_from_loaded_index
           [StarClick "4"; SubmitClick; RatingResponse accepted] 1 3 w);
    first [reflexivity | lia].
Defined.

(** *** The selection in force *)

(** What one page event does to the fields, exactly. *)
Lemma dispatch_this_exact (e : ui_event) (w : world) :
  this (exec (dispatch e) w) =
    match e with
    | StarClick rating => set_currentRating (parseInt rating) (this w)
    | SliderInput value => set_smoothnessFactor value (this w)
    | RatingResponse (Response true (Some _)) =>
        set_ratedTrajectories
          ({[ currentTrajectoryId (this w) ]} ∪ ratedTrajectories (this w)) (this w)
    | _ => this w
    end.
Proof.
  destruct e; simpl dispatch.
  - reflexivity.
  - reflexivity.
  - apply (keeps_this_bind _ _ keeps_this_submitRating_send).
    intros ?. apply keeps_this_ret.
  - destruct (failed r) eqn:Hf.
    + unfold exec. rewrite (submitRating_settle_failed r w Hf).
      destruct r as [| [|] [b |]]; try discriminate Hf; reflexivity.
    + destruct r as [| [|] [b |]]; try discriminate Hf.
      apply submitRating_settle_accepted.
  - apply (keeps_this_bind _ _ keeps_this_regenerateGif_send).
    intros ?. apply keeps_this_ret.
  - apply keeps_this_regenerateGif_settle.
  - apply keeps_this_skipTrajectory.
  - apply keeps_this_navigateTrajectory.
  - apply keeps_this_navigateTrajectory.
  - apply keeps_this_exportResults.
  - reflexivity.
  - reflexivity.
  - apply keeps_this_run_callback.
Qed.

Lemma ksb_ret {A} (a : A) : keeps_submit_button (mret a).
Proof. intros w. reflexivity. Qed.

Lemma ksb_throw {A} (e : exn) : keeps_submit_button (@throw A e).
Proof. intros w. reflexivity. Qed.

Lemma ksb_emit (e : event) : keeps_submit_button (emit e).
Proof. intros w. reflexivity. Qed.

Lemma ksb_get_this : keeps_submit_button get_this.
Proof. intros w. reflexivity. Qed.

Lemma ksb_get_document : keeps_submit_button get_document.
Proof. intros w. reflexivity. Qed.

Lemma ksb_put_this (t : TrajectoryRating) : keeps_submit_button (put_this t).
Proof. intros w. reflexivity. Qed.

Lemma ksb_modify_this (f : TrajectoryRating -> TrajectoryRating) :
  keeps_submit_button (modify_this f).
Proof. intros w. reflexivity. Qed.

Lemma ksb_modify_document (f : Dom -> Dom) :
  (forall d, submit_rating (f d) = submit_rating d) ->
  keeps_submit_button (modify_document f).
Proof. intros Hf w. apply Hf. Qed.

Lemma ksb_bind {A B} (m : M A) (k : A -> M B) :
  keeps_submit_button m -> (forall a, keeps_submit_button (k a)) ->
  keeps_submit_button (m ≫= k).
Proof.
  intros Hm Hk w. unfold exec, mbind, M_bind, bind.
  specialize (Hm w). unfold exec in Hm.
  destruct (m w) as [[a | e] w1]; simpl in *.
  - rewrite <- Hm. apply Hk.
  - exact Hm.
Qed.

Lemma ksb_try_catch (m : M unit) (h : exn -> M unit) :
  keeps_submit_button m -> (forall e, keeps_submit_button (h e)) ->
  keeps_submit_button (try_catch m h).
Proof.
  intros Hm Hh w. unfold exec, try_catch.
  specialize (Hm w). unfold exec in Hm.
  destruct (m w) as [[a | e] w1]; simpl in *.
  - exact Hm.
  - rewrite <- Hm. apply Hh.
Qed.

Ltac button :=
  repeat first
    [ apply ksb_modify_this
    | apply ksb_modify_document; intros ?; reflexivity
    | apply ksb_emit | apply ksb_ret | apply ksb_throw | apply ksb_get_this
    | apply ksb_get_document | apply ksb_put_this
    | apply ksb_try_catch; [| intros ? ]
    | apply ksb_bind; [| intros ? ]
    | match goal with
      | |- keeps_submit_button (match ?x with _ => _ end) => destruct x
      | |- keeps_submit_button (if ?b then _ else _) => destruct b
      end ].

(** Only a star click touches the submit button. *)
Lemma ksb_dispatch (e : ui_event) :
  (forall rating, e <> StarClick rating) -> keeps_submit_button (dispatch e).
Proof.
  intros He. destruct e; simpl dispatch;
    try (exfalso; eapply He; reflexivity).
  - unfold updateSmoothness. button.
  - unfold submitRating_send. button.
  - unfold submitRating_settle, loadStatistics, updateProgress,
      showCompletionModal, populateFinalStats, calculateAverageRating,
      showNotification. button.
  - unfold regenerateGif_send, showNotification. button.
  - unfold regenerateGif_settle, showNotification. button.
  - unfold skipTrajectory, showNotification. button.
  - unfold navigateTrajectory, showNotification. button.
  - unfold navigateTrajectory, showNotification. button.
  - unfold exportResults, calculateAverageRating, showNotification. button.
  - unfold viewAllTrajectories. button.
  - unfold uploadNewVideo. button.
  - destruct cb. unfold run_callback, navigateTrajectory, showNotification. button.
Qed.

Lemma last_star_snoc (events : list ui_event) (e : ui_event) :
  last_star (events ++ [e]) =
    match e with
    | StarClick rating => Some rating
    | _ => last_star events
    end.
Proof.
  induction events as [| e0 events IH]; simpl.
  - destruct e; reflexivity.
  - rewrite IH. destruct e; try reflexivity.
Qed.

Lemma last_slider_snoc (events : list ui_event) (e : ui_event) :
  last_slider (events ++ [e]) =
    match e with
    | SliderInput value => Some value
    | _ => last_slider events
    end.
Proof.
  induction events as [| e0 events IH]; simpl.
  - destruct e; reflexivity.
  - rewrite IH. destruct e; try reflexivity.
Qed.

(** X21. The selection in force is the last input.  After any list of
    events the chosen rating is [parseInt] of the most recent star click
    (the rating it had before, if no star was clicked), the smoothing
    factor is the most recent slider value, and the submit button, when
    the page has one, is enabled exactly from the first star click on; no
    other event changes any of the three. *)
Theorem selection_is_last_input (events : list ui_event) (w : world) :
  let w' := dispatch_all events w in
  currentRating (this w') =
    match last_star events with
    | Some rating => parseInt rating
    | None => currentRating (this w)
    end
  /\ smoothnessFactor (this w') =
       match last_slider events with
       | Some value => value
       | None => smoothnessFactor (this w)
       end
  /\ submit_rating (document w') =
       match last_star events with
       | Some _ => assign false (submit_rating (document w))
       | None => submit_rating (document w)
       end.
Proof.
  induction events as [| e events IH] using rev_ind; [repeat split |].
  rewrite dispatch_all_snoc, last_star_snoc, last_slider_snoc.
  simpl in IH. destruct IH as (IH1 & IH2 & IH3).
  simpl. rewrite dispatch_this_exact.
  split; [| split].
  - destruct e; try exact IH1; [reflexivity |].
    destruct r as [| [|] [b |]]; exact IH1.
  - destruct e; try exact IH2; [reflexivity |].
    destruct r as [| [|] [b |]]; exact IH2.
  - destruct e;
      try (rewrite ksb_dispatch by (intros ?; discriminate); exact IH3).
    simpl. rewrite IH3.
    destruct (last_star events); destruct (submit_rating (document w)); reflexivity.
Qed.

(** *** A response that arrives late *)

(** C9, counterexample.  The index is not captured when the request is
    made: if [setCurrentTrajectory] runs while the request for index 0 is
    pending, the accepted response records index 1, and index 0, the one
    the request was sent for, is not recorded. *)
Lemma late_response_after_index_change :
  let w := exec (selectRating "5") (session full_page "0" "3") in
  let w1 := exec submitRating_send w in
  let w2 := exec (setCurrentTrajectory (Num (Int 1))) w1 in
  let w3 := exec (submitRating_settle accepted) w2 in
  requests w1 =
    [Fetch (RateTrajectory (Some "v.mp4") (Num (Int 0)) (Int 5) EmptyString (1 # 10))]
  /\ currentTrajectoryId (this w2) = Num (Int 1)
  /\ ratedTrajectories (this w3) = {[ Num (Int 1) ]}
  /\ Num (Int 0) ∉ ratedTrajectories (this w3).
Proof.
  split; [vm_compute; reflexivity |].
  split; [vm_compute; reflexivity |].
  split; [vm_compute; reflexivity |].
  vm_compute. intros Hin. discriminate Hin.
Qed.

(** C9, as the method is written.  The accepted response records the
    index that the field holds when the response is handled, in every
    world.  No page event changes that field, so on the page, whatever
    events come between the request and its response, the index recorded
    is the index the request was sent for. *)
Theorem response_records_index_held_at_handling (w w_any : world) (i : Z)
    (b : body) (events : list ui_event) :
  truthy_num (currentRating (this w)) = true ->
  currentTrajectoryId (this w) = Num (Int i) ->
  let w1 := exec submitRating_send w in
  let w2 := dispatch_all events w1 in
  let w3 := exec (submitRating_settle (Response true (Some b))) w2 in
  effects w1 =
    effects w ++
      [Fetch (RateTrajectory (videoFilename (this w)) (Num (Int i))
                (currentRating (this w))
                (match comment (document w) with Some v => v | None => EmptyString end)
                (smoothnessFactor (this w)))]
  /\ ratedTrajectories
       (this (exec (submitRating_settle (Response true (Some b))) w_any))
     = {[ currentTrajectoryId (this w_any) ]} ∪ ratedTrajectories (this w_any)
  /\ currentTrajectoryId (this w2) = Num (Int i)
  /\ ratedTrajectories (this w3) = {[ Num (Int i) ]} ∪ ratedTrajectories (this w2)
  /\ Num (Int i) ∈ ratedTrajectories (this w3).
Proof.
  intros Hr Hi w1 w2 w3.
  assert (E1 : w1 = logged
    (Fetch (RateTrajectory (videoFilename (this w)) (Num (Int i))
              (currentRating (this w))
              (match comment (document w) with Some v => v | None => EmptyString end)
              (smoothnessFactor (this w)))) w).
  { unfold w1, exec. rewrite submitRating_send_passes; rewrite ?Hi; try done. }
  assert (I2 : currentTrajectoryId (this w2) = Num (Int i)).
  { destruct (dispatch_all_this events w1) as (H & _). fold w2 in H.
    simpl in H. rewrite H, E1. exact Hi. }
  assert (E3 : ratedTrajectories (this w3)
               = {[ Num (Int i) ]} ∪ ratedTrajectories (this w2)).
  { unfold w3. rewrite submitRating_settle_accepted. simpl. rewrite I2.
    reflexivity. }
  split; [rewrite E1; reflexivity |].
  split; [rewrite submitRating_settle_accepted; reflexivity |].
  split; [exact I2 |].
  split; [exact E3 |].
  rewrite E3. apply elem_of_union_l, elem_of_singleton. reflexivity.
Qed.

Lemma response_records_index_held_at_handling_witness :
  let w := exec (selectRating "5") (session full_page "1" "3") in
  let w1 := exec submitRating_send w in
  let w2 := dispatch_all [StarClick "2"; PrevClick; RegenerateClick; SkipClick] w1 in
  let w3 := exec (submitRating_settle (Response true (Some {| gif_path := None |}))) w2 in
  currentTrajectoryId (this w2) = Num (Int 1)
  /\ Num (Int 1) ∈ ratedTrajectories (this w3).
Proof.
  intros w.
  destruct (response_records_index_held_at_handling w w 1 {| gif_path := None |}
              [StarClick "2"; PrevClick; RegenerateClick; SkipClick])
    as (_ & _ & H3 & _ & H5); [reflexivity | reflexivity |].
  split; [exact H3 | exact H5].
Defined.
